(** * stat-attack: the stat visibility engine and its collaborators

    A shallow embedding of the selection / reveal bookkeeping of the
    [PlayerStats] component, of the [PlayerSearch] component and of the
    guesses route, with the properties claimed of them.

    JavaScript arrays of strings are [list string], [Array.prototype.includes]
    is decidable list membership, a [Set<string>] is a [gset string], an object
    used as a record is an association list in key-insertion order, and the
    display-mapping tables are finite maps from keys to [StatMapping]. A
    string is the sequence of its code units, so that [length] is the
    [length] of JavaScript. Calls to a callback or to an external provider
    are returned as a list, in the order they are made. *)

From Stdlib Require Import ZArith.
From stdpp Require Import gmap strings list sorting.

Local Open Scope string_scope.
Local Open Scope Z_scope.
Local Open Scope list_scope.

(** ** Data model *)

(** Values held by the fields of a record of the statistics provider. *)
Inductive JsValue : Type :=
  | VNull
  | VBool (b : bool)
  | VNum (n : Z)
  | VStr (s : string)
  | VObj (subKeys : list string).

(** A record: its own enumerable properties, in insertion order. *)
Definition JsObject : Type := list (string * JsValue).

(** [Object.keys(obj)]. *)
Definition Object_keys (obj : JsObject) : list string := obj.*1.

(** [arr.includes(x)]. *)
Definition includes (arr : list string) (x : string) : bool :=
  bool_decide (x ∈ arr).

(** [arr.filter(attr => attr !== x)]. *)
Definition without (x : string) (arr : list string) : list string :=
  filter (λ attr, attr ≠ x) arr.

(** [arr.push(x)] on a local copy. *)
Definition push (arr : list string) (x : string) : list string := arr ++ [x].

(** [interface StatMapping]: a label and an optional [order]. *)
Record StatMapping : Type := mkStatMapping {
  label : string;
  order : option Z
}.

(** ['info' | 'hitting' | 'pitching']. *)
Inductive StatType : Type := info | hitting | pitching.

#[global] Instance StatType_eq_dec : EqDecision StatType.
Proof. solve_decision. Defined.

(** One namespace's partition. *)
Record Selection : Type := mkSelection {
  selected : list string;
  deselected : list string
}.

(** [interface StatsConfig] of the create-game page. *)
Record StatsConfig : Type := mkStatsConfig {
  cfg_info : Selection;
  cfg_hitting : Selection;
  cfg_pitching : Selection
}.

Definition selection_of (cfg : StatsConfig) (type : StatType) : Selection :=
  match type with
  | info => cfg_info cfg
  | hitting => cfg_hitting cfg
  | pitching => cfg_pitching cfg
  end.

(** The initial [statsConfig] state of [CreateGamePage]. *)
Definition initialStatsConfig : StatsConfig :=
  mkStatsConfig (mkSelection [] []) (mkSelection [] []) (mkSelection [] []).

(** One call [onStatsChange(type, selected, deselected)]. *)
Record StatsChange : Type := mkStatsChange {
  sc_type : StatType;
  sc_selected : list string;
  sc_deselected : list string
}.

(** [handleStatsChange]: [setStatsConfig(prev => ({...prev, [type]: {selected,
    deselected}}))]. *)
Definition handleStatsChange (prev : StatsConfig) (c : StatsChange) : StatsConfig :=
  let s := mkSelection (sc_selected c) (sc_deselected c) in
  match sc_type c with
  | info => mkStatsConfig s (cfg_hitting prev) (cfg_pitching prev)
  | hitting => mkStatsConfig (cfg_info prev) s (cfg_pitching prev)
  | pitching => mkStatsConfig (cfg_info prev) (cfg_hitting prev) s
  end.

(** The state updates queued by a run of calls, applied in order. *)
Definition applyStatsChanges (prev : StatsConfig) (cs : list StatsChange) : StatsConfig :=
  foldl handleStatsChange prev cs.

(** ** [Array.prototype.sort] with a numeric comparator

    The sort is stable: [x] goes before the first element it does not compare
    greater than, and elements are taken from the right, so that equal
    elements keep their order. *)
Section ArraySort.
Context {A : Type} (compareFn : A → A → Z).

Fixpoint sortInsert (x : A) (l : list A) : list A :=
  match l with
  | [] => [x]
  | y :: l' => if decide (compareFn x y ≤ 0) then x :: y :: l' else y :: sortInsert x l'
  end.

Definition Array_sort (l : list A) : list A := foldr sortInsert [] l.
End ArraySort.

(** Data resolved by [fetchPlayerData]. *)
Record PlayerData : Type := mkPlayerData {
  d_playerInfo : option JsObject;
  d_hittingStats : list JsObject;
  d_pitchingStats : list JsObject
}.

(** Outcome of awaiting [fetchPlayerData(playerId)]: the promise rejects with
    an [Error] message, with something that is not an [Error], or resolves. *)
Inductive Fetched : Type :=
  | RejectedError (message : string)
  | RejectedOther
  | Resolved (data : PlayerData).

(** The component's own state. *)
Record Local : Type := mkLocal {
  playerInfo : option JsObject;
  hittingStats : list JsObject;
  pitchingStats : list JsObject;
  isLoading : bool;
  error : option string
}.

Definition initialLocal : Local := mkLocal None [] [] true None.

(** ** The [PlayerStats] component

    The later revision of the component: the one with the paired field, the
    [showAllStats] switch and the [useRevealedStats] hook. *)
Module PlayerStats.
Section WithMappings.
(** The display-mapping tables of [utils/statMappings] and the provider
    call of [utils/mlbApi]. *)
Variable playerInfoMappings : gmap string StatMapping.
Variable hittingStatMappings : gmap string StatMapping.
Variable pitchingStatMappings : gmap string StatMapping.
Variable fetchPlayerData : Z → Fetched.

(** [key in mappings]: the tables are object literals keyed by stat names,
    and a record of the provider has no key named after a member of
    [Object.prototype], so that only the table's own keys matter. *)
Definition key_in (key : string) (mappings : gmap string StatMapping) : bool :=
  bool_decide (is_Some (mappings !! key)).

(** [mappings[key]?.order || 0]: an absent mapping, an absent [order] and
    an [order] of zero all give zero. *)
Definition orderOrZero (mappings : gmap string StatMapping) (key : string) : Z :=
  match mappings !! key with
  | Some m =>
      match order m with
      | Some n => if decide (n = 0) then 0 else n
      | None => 0
      end
  | None => 0
  end.

(** The comparator [(a, b) => (mappings[a]?.order || 0) - (mappings[b]?.order || 0)]. *)
Definition compareOrder (mappings : gmap string StatMapping) (a b : string) : Z :=
  orderOrZero mappings a - orderOrZero mappings b.

(** [mappings[String(key)]] is an object when present, hence truthy. *)
Definition mappingTruthy (mappings : gmap string StatMapping) (key : string) : bool :=
  match mappings !! key with
  | Some _ => true
  | None => false
  end.

Definition getSortedKeys (obj : JsObject) (mappings : gmap string StatMapping) : list string :=
  Array_sort (compareOrder mappings)
    (filter (λ key, key_in key mappings && mappingTruthy mappings key) (Object_keys obj)).

(** The body of [if (configurable) { ... }] in [loadPlayerData]; [props]
    are the selections the effect closed over. *)
Definition initialize (props : StatsConfig) (data : PlayerData) (pinfo : JsObject)
    : list StatsChange :=
  [mkStatsChange info [] (Object_keys pinfo)]
  ++ match d_hittingStats data with
     | first :: _ =>
         if bool_decide (length (selected (cfg_hitting props)) = 0%nat)
            && bool_decide (length (deselected (cfg_hitting props)) = 0%nat)
         then [mkStatsChange hitting
                 (filter (λ key, key_in key hittingStatMappings) (Object_keys first)) []]
         else []
     | [] => []
     end
  ++ match d_pitchingStats data with
     | first :: _ =>
         if bool_decide (length (selected (cfg_pitching props)) = 0%nat)
            && bool_decide (length (deselected (cfg_pitching props)) = 0%nat)
         then [mkStatsChange pitching
                 (filter (λ key, key_in key pitchingStatMappings) (Object_keys first)) []]
         else []
     | [] => []
     end.

(** [loadPlayerData]: the new component state and the calls made to
    [onStatsChange]. A [playerId] of zero is falsy. *)
Definition loadPlayerData (playerId : Z) (configurable : bool) (props : StatsConfig)
    (st : Local) : Local * list StatsChange :=
  if decide (playerId = 0) then
    (mkLocal (playerInfo st) (hittingStats st) (pitchingStats st) false
       (Some "No player ID provided"), [])
  else
    match fetchPlayerData playerId with
    | RejectedError message =>
        (mkLocal (playerInfo st) (hittingStats st) (pitchingStats st) false
           (Some message), [])
    | RejectedOther =>
        (mkLocal (playerInfo st) (hittingStats st) (pitchingStats st) false
           (Some "Failed to load player data"), [])
    | Resolved data =>
        match d_playerInfo data with
        | None =>
            (mkLocal (playerInfo st) (hittingStats st) (pitchingStats st) false
               (Some "Player information not found"), [])
        | Some pinfo =>
            (mkLocal (Some pinfo) (d_hittingStats data) (d_pitchingStats data) false None,
             if configurable then initialize props data pinfo else [])
        end
    end.

(** [toggleAttribute]: the call made to [onStatsChange]. *)
Definition toggleAttribute (props : StatsConfig) (attribute : string) (type : StatType)
    : StatsChange :=
  let sel := selected (selection_of props type) in
  let desel := deselected (selection_of props type) in
  if includes sel attribute then
    let sel := without attribute sel in
    let desel := push desel attribute in
    if decide (attribute = "team") then
      let desel := if negb (includes desel "teamDetails")
                   then push desel "teamDetails" else desel in
      let sel := without "teamDetails" sel in
      mkStatsChange type sel desel
    else mkStatsChange type sel desel
  else
    let desel := without attribute desel in
    let sel := push sel attribute in
    if decide (attribute = "team") then
      let desel := without "teamDetails" desel in
      let sel := if negb (includes sel "teamDetails")
                 then push sel "teamDetails" else sel in
      mkStatsChange type sel desel
    else mkStatsChange type sel desel.

Definition handleToggle (props : StatsConfig) (key : string) (type : StatType) : StatsChange :=
  toggleAttribute props key type.

(** The [allKeys] of [handleToggleAll]. *)
Definition allKeysOf (st : Local) (type : StatType) : list string :=
  match type with
  | info =>
      match playerInfo st with
      | Some pinfo => getSortedKeys pinfo playerInfoMappings
      | None => []
      end
  | hitting =>
      match hittingStats st with
      | first :: _ => getSortedKeys first hittingStatMappings
      | [] => []
      end
  | pitching =>
      match pitchingStats st with
      | first :: _ => getSortedKeys first pitchingStatMappings
      | [] => []
      end
  end.

(** [handleToggleAll]: the call made to [onStatsChange]. *)
Definition handleToggleAll (st : Local) (type : StatType) (selectedKeys : list string)
    : StatsChange :=
  let allKeys := allKeysOf st type in
  let deselectedKeys :=
    if bool_decide (length selectedKeys = 0%nat) then allKeys
    else
      let deselectedKeys := filter (λ key, negb (includes selectedKeys key)) allKeys in
      if includes selectedKeys "team" then without "teamDetails" deselectedKeys
      else deselectedKeys in
  mkStatsChange type selectedKeys deselectedKeys.

(** [getVisibleKeys]. *)
Definition getVisibleKeys (configurable showAllStats : bool)
    (allKeys sel desel : list string) : list string :=
  if configurable || showAllStats then without "teamDetails" allKeys
  else filter (λ key, includes sel key && bool_decide (key ≠ "teamDetails")) allKeys.

End WithMappings.
End PlayerStats.

(** ** The [useRevealedStats] hook

    The hook's refs and state. A pending [setTimeout] is [timerPending];
    [timeoutRef] keeps the last handle, also after it fired or was cleared. *)
Module RevealedStats.

Record Hook : Type := mkHook {
  newlyRevealed : gset string;
  timeoutRef : bool;
  timerPending : bool;
  previousStatsRef : gset string;
  isMountedRef : bool
}.

(** The refs and state of the first render. *)
Definition initialHook : Hook := mkHook ∅ false false ∅ false.

(** [stats.filter(stat => !previousStatsRef.current.has(stat))]. *)
Definition newStats (previous : gset string) (stats : list string) : list string :=
  filter (λ stat, negb (bool_decide (stat ∈ previous))) stats.

(** The first effect (dependencies [[]]): runs once, after the first render. *)
Definition mountEffect (stats : list string) (h : Hook) : Hook :=
  if negb (isMountedRef h) then
    mkHook (newlyRevealed h) (timeoutRef h) (timerPending h) (list_to_set stats) true
  else h.

(** The second effect (dependencies [[stats]]). *)
Definition statsEffect (stats : list string) (h : Hook) : Hook :=
  if negb (isMountedRef h) then h
  else
    let fresh := newStats (previousStatsRef h) stats in
    if bool_decide (0 < length fresh)%nat then
      (* setNewlyRevealed; clearTimeout of the old handle; setTimeout *)
      mkHook (list_to_set fresh) true true (list_to_set stats) (isMountedRef h)
    else
      mkHook (newlyRevealed h) (timeoutRef h) (timerPending h) (list_to_set stats)
        (isMountedRef h).

(** The cleanup returned by the second effect. *)
Definition statsCleanup (h : Hook) : Hook :=
  if timeoutRef h then
    mkHook (newlyRevealed h) (timeoutRef h) false (previousStatsRef h) (isMountedRef h)
  else h.

(** The timeout callback, which runs only while the timer is pending. *)
Definition timeoutFires (h : Hook) : Hook :=
  if timerPending h then
    mkHook ∅ (timeoutRef h) false (previousStatsRef h) (isMountedRef h)
  else h.

(** What happens to a mounted hook: a render with a new [stats] array
    (cleanup, then the second effect) or the expiry of the timer. *)
Inductive Event : Type :=
  | StatsChanged (stats : list string)
  | TimerExpired.

(** Effects of the first render, in declaration order. *)
Definition mount (stats : list string) : Hook :=
  statsEffect stats (mountEffect stats initialHook).

Definition step (h : Hook) (e : Event) : Hook :=
  match e with
  | StatsChanged stats => statsEffect stats (statsCleanup h)
  | TimerExpired => timeoutFires h
  end.

Definition run (h : Hook) (es : list Event) : Hook := foldl step h es.

(** The value the hook returns to the component. *)
Definition useRevealedStats (stats : list string) (es : list Event) : gset string :=
  newlyRevealed (run (mount stats) es).

End RevealedStats.

(** ** The [PlayerSearch] component *)
Module PlayerSearch.

Record Player : Type := mkPlayer {
  id : Z;
  fullName : string
}.

Record State : Type := mkState {
  open : bool;
  search : string;
  players : list Player;
  loading : bool
}.

(** A request sent to the statistics provider: the [names] query. *)
Inductive ProviderCall : Type :=
  | PeopleSearch (names : string).

(** Outcome of [fetch] and [response.json()]: an exception, or the
    [people] field of the answer, which may be absent. *)
Inductive Answer : Type :=
  | Threw
  | Json (people : option (list Player)).

Section WithProvider.
Variable provider : string → Answer.

(** [searchPlayers]: the new state and the provider calls made. *)
Definition searchPlayers (query : string) (st : State) : State * list ProviderCall :=
  if bool_decide (String.length query < 2)%nat then
    (mkState (open st) (search st) [] (loading st), [])
  else
    match provider query with
    | Json people =>
        (mkState true (search st) (default [] people) false, [PeopleSearch query])
    | Threw =>
        (mkState (open st) (search st) [] false, [PeopleSearch query])
    end.

Definition handleSearch (value : string) (st : State) : State * list ProviderCall :=
  let st := mkState (open st) value (players st) (loading st) in
  if bool_decide (2 ≤ String.length value)%nat then searchPlayers value st
  else (mkState false (search st) (players st) (loading st), []).

End WithProvider.
End PlayerSearch.

(** ** The guesses route *)
Module GuessesRoute.

(** A field of the request body; [None] is a field that is missing. *)
Record Row : Type := mkRow {
  game_id : option JsValue;
  user_id : option JsValue;
  guess : option JsValue;
  is_correct : option JsValue
}.

Record Request : Type := mkRequest {
  method : string;
  body : Row;
  query_game_id : option JsValue
}.

(** What the persistence provider answers: [{ data, error }], where [data]
    is [null] ([None]) for an insert that does not select. *)
Inductive DbResult : Type :=
  | DbError (message : string)
  | DbData (data : option (list Row)).

Inductive ResponseBody : Type :=
  | JsonError (message : string)
  | JsonData (data : option (list Row))
  | Text (message : string).

Record Response : Type := mkResponse {
  status : Z;
  allow : list string;
  payload : ResponseBody
}.

(** The persistence provider: a store and the two table operations the
    route uses. *)
Class Supabase (Store : Type) : Type := {
  insert : Store → list Row → Store * DbResult;
  select_eq_game_id : Store → option JsValue → Store * DbResult
}.

(** A call made to the provider. *)
Inductive DbCall : Type :=
  | Insert (rows : list Row)
  | SelectByGame (gid : option JsValue).

Section WithSupabase.
Context {Store : Type} `{!Supabase Store}.

Definition handler (req : Request) (store : Store) : Store * list DbCall * Response :=
  if decide (method req = "POST") then
    let row := mkRow (game_id (body req)) (user_id (body req)) (guess (body req))
                 (is_correct (body req)) in
    let '(store', r) := insert store [row] in
    match r with
    | DbError message => (store', [Insert [row]], mkResponse 400 [] (JsonError message))
    | DbData data => (store', [Insert [row]], mkResponse 201 [] (JsonData data))
    end
  else if decide (method req = "GET") then
    let '(store', r) := select_eq_game_id store (query_game_id req) in
    match r with
    | DbError message =>
        (store', [SelectByGame (query_game_id req)], mkResponse 400 [] (JsonError message))
    | DbData data =>
        (store', [SelectByGame (query_game_id req)], mkResponse 200 [] (JsonData data))
    end
  else
    (store, [], mkResponse 405 ["POST"; "GET"]
                  (Text ("Method " +:+ method req +:+ " Not Allowed"))).

End WithSupabase.

(** A field that is there and is not [null]. *)
Definition present (field : option JsValue) : bool :=
  match field with
  | Some VNull | None => false
  | Some _ => true
  end.

(** The row has the three fields [game_id], [user_id] and [guess]. *)
Definition rowComplete (r : Row) : bool :=
  present (game_id r) && present (user_id r) && present (guess r).

(** The contract of the table of guesses. In [model UserGuess] the columns
    [game_id], [user_id] and [guess] are required, so a row without one of
    them is refused; and an insert that is refused stores nothing. *)
Class RequiredColumns (Store : Type) `{!Supabase Store} : Prop := {
  insert_incomplete :
    ∀ (store : Store) (row : Row),
      rowComplete row = false → ∃ message, insert store [row] = (store, DbError message);
  insert_refused :
    ∀ (store store' : Store) (rows : list Row) (message : string),
      insert store rows = (store', DbError message) → store' = store
}.

(** A provider over an in-memory table with the required columns of
    [model UserGuess]: it refuses a row that lacks one of them. *)
Definition rowValid (r : Row) : bool :=
  rowComplete r && present (is_correct r).

Definition sameGame (gid : option JsValue) (r : Row) : bool :=
  match gid, game_id r with
  | Some (VStr a), Some (VStr b) => bool_decide (a = b)
  | _, _ => false
  end.

Record Strict : Type := mkStrict { strictRows : list Row }.

#[global] Instance strictSupabase : Supabase Strict := {
  insert s rows :=
    if forallb rowValid rows then (mkStrict (strictRows s ++ rows), DbData None)
    else (s, DbError "null value violates not-null constraint");
  select_eq_game_id s gid :=
    (s, DbData (Some (filter (λ r, sameGame gid r) (strictRows s))))
}.

#[global] Instance strictRequiredColumns : RequiredColumns Strict.
Proof.
  split.
  - intros store row Hrow. exists "null value violates not-null constraint".
    simpl. unfold rowValid. by rewrite Hrow.
  - intros store store' rows message. simpl.
    destruct (forallb rowValid rows); [discriminate|]. by intros [= <- _].
Qed.

End GuessesRoute.

(** ** The earlier revision of the component ([src/components/PlayerStats.tsx])

    It has no paired-field rule, initializes every namespace as selected and
    enumerates [Object.keys] in [handleToggleAll]. *)
Module PlayerStatsEarlier.

Definition getSortedKeys (obj : JsObject) (mappings : gmap string StatMapping) : list string :=
  Array_sort (PlayerStats.compareOrder mappings)
    (filter (λ key, PlayerStats.key_in key mappings) (Object_keys obj)).

(** The calls made to [onStatsChange] by [loadPlayerData] once the data
    has arrived. *)
Definition loadPlayerData (configurable : bool) (props : StatsConfig) (data : PlayerData)
    : list StatsChange :=
  match d_playerInfo data with
  | Some pinfo =>
      if configurable && bool_decide (length (selected (cfg_info props)) = 0%nat)
      then [mkStatsChange info (Object_keys pinfo) []] else []
  | None => []
  end
  ++ match d_hittingStats data with
     | first :: _ =>
         if configurable && bool_decide (length (selected (cfg_hitting props)) = 0%nat)
         then [mkStatsChange hitting (Object_keys first) []] else []
     | [] => []
     end
  ++ match d_pitchingStats data with
     | first :: _ =>
         if configurable && bool_decide (length (selected (cfg_pitching props)) = 0%nat)
         then [mkStatsChange pitching (Object_keys first) []] else []
     | [] => []
     end.

Definition toggleAttribute (props : StatsConfig) (attribute : string) (type : StatType)
    : StatsChange :=
  let sel := selected (selection_of props type) in
  let desel := deselected (selection_of props type) in
  if includes sel attribute then
    mkStatsChange type (without attribute sel) (push desel attribute)
  else
    mkStatsChange type (push sel attribute) (without attribute desel).

Definition allKeysOf (st : Local) (type : StatType) : list string :=
  match type with
  | info => match playerInfo st with Some pinfo => Object_keys pinfo | None => [] end
  | hitting => match hittingStats st with first :: _ => Object_keys first | [] => [] end
  | pitching => match pitchingStats st with first :: _ => Object_keys first | [] => [] end
  end.

Definition handleToggleAll (st : Local) (type : StatType) (selectedKeys : list string)
    : StatsChange :=
  let allKeys := allKeysOf st type in
  let deselectedKeys :=
    if bool_decide (length selectedKeys = 0%nat) then allKeys
    else filter (λ key, negb (includes selectedKeys key)) allKeys in
  mkStatsChange type selectedKeys deselectedKeys.

End PlayerStatsEarlier.

(** ** Sample data

    Small tables and records on which the definitions are evaluated. *)
Module Samples.

Definition infoMappings : gmap string StatMapping :=
  list_to_map [("age", mkStatMapping "Age" (Some 3));
               ("team", mkStatMapping "Team" (Some 1));
               ("teamDetails", mkStatMapping "Team Details" (Some 2));
               ("nickName", mkStatMapping "Nickname" None)].

Definition hittingMappings : gmap string StatMapping :=
  list_to_map [("avg", mkStatMapping "AVG" (Some 2));
               ("hr", mkStatMapping "HR" (Some 1))].

Definition pitchingMappings : gmap string StatMapping :=
  list_to_map [("era", mkStatMapping "ERA" (Some 1));
               ("wins", mkStatMapping "W" (Some 2))].

Definition somePlayerInfo : JsObject :=
  [("age", VNum 30); ("team", VStr "NYY"); ("teamDetails", VStr "New York Yankees")].

Definition someHittingRecord : JsObject :=
  [("avg", VStr ".300"); ("hr", VNum 40); ("playerId", VNum 7)].

Definition somePitchingRecord : JsObject :=
  [("wins", VNum 12); ("era", VStr "3.10")].

Definition someData : PlayerData :=
  mkPlayerData (Some somePlayerInfo) [someHittingRecord] [somePitchingRecord].

Definition someFetch (playerId : Z) : Fetched := Resolved someData.

Definition loadedLocal : Local :=
  mkLocal (Some somePlayerInfo) [someHittingRecord] [somePitchingRecord] false None.

(** The creator has revealed the team; the age stays hidden. *)
Definition teamRevealed : StatsConfig :=
  mkStatsConfig (mkSelection ["team"; "teamDetails"] ["age"])
    (mkSelection ["avg"; "hr"] []) (mkSelection ["wins"; "era"] []).

(** A table in which one key has a priority and the other has none. *)
Definition mixedMappings : gmap string StatMapping :=
  list_to_map [("a", mkStatMapping "A" (Some 1)); ("b", mkStatMapping "B" None)].

Definition mixedRecord : JsObject := [("a", VNum 1); ("b", VNum 2)].

(** A provider that knows one player, and a search box listing that
    player. *)
Definition someProvider (names : string) : PlayerSearch.Answer :=
  PlayerSearch.Json (Some [PlayerSearch.mkPlayer 7 "Jo Doe"]).

Definition someSearch : PlayerSearch.State :=
  PlayerSearch.mkState true "jo" [PlayerSearch.mkPlayer 7 "Jo Doe"] false.

End Samples.

(** ** Vocabulary of the properties *)

(** "teamDetails" is on the same side as "team". *)
Definition sameSide (s : Selection) : Prop :=
  ("teamDetails" ∈ selected s ↔ "team" ∈ selected s)
  ∧ ("teamDetails" ∈ deselected s ↔ "team" ∈ deselected s).

(** "teamDetails" is selected if and only if "team" is. *)
Definition selectedTogether (s : Selection) : Prop :=
  "teamDetails" ∈ selected s ↔ "team" ∈ selected s.

(** Ascending order of priorities. *)
Definition ascending {A : Type} (key : A → Z) : relation A := λ a b, key a ≤ key b.

(** The namespace's selection once the page has handled the call [c]. *)
Definition afterCall (prev : StatsConfig) (c : StatsChange) : Selection :=
  selection_of (handleStatsChange prev c) (sc_type c).

(** The records and the display-mapping table of a statistics namespace. *)
Definition statsOf (data : PlayerData) (type : StatType) : list JsObject :=
  match type with
  | info => []
  | hitting => d_hittingStats data
  | pitching => d_pitchingStats data
  end.

Definition statMappingsOf (hittingStatMappings pitchingStatMappings : gmap string StatMapping)
    (type : StatType) : gmap string StatMapping :=
  match type with
  | info => ∅
  | hitting => hittingStatMappings
  | pitching => pitchingStatMappings
  end.

(** The selection in force after a run of events on a hook mounted with
    [stats]. *)
Definition selectionAfter (stats : list string) (es : list RevealedStats.Event)
    : list string :=
  foldl (λ current e,
           match e with
           | RevealedStats.StatsChanged changed => changed
           | RevealedStats.TimerExpired => current
           end) stats es.

(** A guess submitted without its game identifier, and a complete one. *)
Definition guessWithoutGame : GuessesRoute.Request :=
  GuessesRoute.mkRequest "POST"
    (GuessesRoute.mkRow None (Some (VStr "user-1")) (Some (VNum 7))
       (Some (VBool false)))
    None.

Definition completeGuess : GuessesRoute.Request :=
  GuessesRoute.mkRequest "POST"
    (GuessesRoute.mkRow (Some (VStr "game-1")) (Some (VStr "user-1")) (Some (VNum 7))
       (Some (VBool true)))
    None.

(** ** Reading and writing a property of a record *)

(** [obj[key]]: [None] is [undefined]. *)
Fixpoint obj_get (obj : JsObject) (key : string) : option JsValue :=
  match obj with
  | [] => None
  | (k, v) :: rest => if decide (k = key) then Some v else obj_get rest key
  end.

(** [obj[key] = v]: an existing property keeps its place, a new one goes
    last. *)
Fixpoint obj_set (key : string) (v : JsValue) (obj : JsObject) : JsObject :=
  match obj with
  | [] => [(key, v)]
  | (k, w) :: rest =>
      if decide (k = key) then (k, v) :: rest else (k, w) :: obj_set key v rest
  end.

(** [target[key] = source[key]] for a [key] taken from [Object.keys(source)],
    where [source[key]] is always there. *)
Definition obj_copy (source : JsObject) (key : string) (target : JsObject) : JsObject :=
  match obj_get source key with
  | Some v => obj_set key v target
  | None => target
  end.

(** ** What the [PlayerStats] component shows *)
Module PlayerStatsView.

(** [filterVisibleStats] of the later revision. *)
Definition filterVisibleStats (configurable showAllStats : bool) (stats : JsObject)
    (selectedKeys : list string) : JsObject :=
  if configurable || showAllStats then stats
  else
    foldl (λ filteredStats key,
             let filteredStats :=
               if includes selectedKeys key then obj_copy stats key filteredStats
               else filteredStats in
             if bool_decide (key = "teamDetails") && includes selectedKeys "team"
             then obj_copy stats key filteredStats
             else filteredStats)
      [] (Object_keys stats).

End PlayerStatsView.

Module PlayerStatsViewEarlier.

(** [filterVisibleStats] of the earlier revision: a copy of the record in
    which the values that are not selected are replaced by a dash. *)
Definition filterVisibleStats (configurable : bool) (stats : JsObject)
    (selectedKeys : list string) : JsObject :=
  if configurable then stats
  else
    foldl (λ filteredStats key,
             if negb (includes selectedKeys key) then obj_set key (VStr "-") filteredStats
             else filteredStats)
      stats (Object_keys stats).

End PlayerStatsViewEarlier.

(** ** The rest of the [PlayerSearch] component *)
Module SearchBox.
Import PlayerSearch.

(** [handleSelect]: the new state and the player handed to
    [onPlayerSelect]. *)
Definition handleSelect (playerId : Z) (playerName : string) (st : State) : State * Player :=
  (mkState false playerName (players st) (loading st), mkPlayer playerId playerName).

(** [onFocus]: [search.length >= 2 && setOpen(true)]. *)
Definition onFocus (st : State) : State :=
  if bool_decide (2 ≤ String.length (search st))%nat
  then mkState true (search st) (players st) (loading st)
  else st.

(** What is rendered under the input. *)
Inductive Dropdown : Type :=
  | Hidden
  | Loading
  | Results (shown : list Player)
  | NoPlayersFound
  | Empty.

Definition dropdown (st : State) : Dropdown :=
  if negb (open st) then Hidden
  else if loading st then Loading
  else if bool_decide (0 < length (players st))%nat then Results (players st)
  else if bool_decide (2 ≤ String.length (search st))%nat then NoPlayersFound
  else Empty.

End SearchBox.

(** ** The create-game page *)
Module CreateGamePage.

Record Hint : Type := mkHint {
  enabled : bool;
  text : string
}.

(** [interface GameOptions], as far as the page reads it. *)
Record GameOptions : Type := mkGameOptions {
  maxGuesses : Z;
  hint : option Hint
}.

Record User : Type := mkUser { userId : string }.

Record Page : Type := mkPage {
  selectedPlayer : option PlayerSearch.Player;
  statsConfig : StatsConfig;
  gameOptions : GameOptions;
  link : string;
  user : option User
}.

(** The state of the first render. *)
Definition initialPage : Page :=
  mkPage None initialStatsConfig (mkGameOptions 3 None) "" None.

(** The body posted to [/api/games]. *)
Record GameBody : Type := mkGameBody {
  title : string;
  creator_id : option string;
  player_id : Z;
  stats_config : StatsConfig;
  body_maxGuesses : Z;
  body_hint : Hint
}.

(** Outcome of the request: [fetch] or [json()] throws, the response is not
    [ok], or it is [ok] and its [data.game], which may be missing, has the
    given [id]. *)
Inductive SaveAnswer : Type :=
  | SaveThrew
  | NotOk
  | Ok (gameId : option string).

Definition handlePlayerSelect (player : PlayerSearch.Player) (page : Page) : Page :=
  mkPage (Some player) (statsConfig page) (gameOptions page) (link page) (user page).

(** [handleStatsChange] on the page's state. *)
Definition onStatsChange (c : StatsChange) (page : Page) : Page :=
  mkPage (selectedPlayer page) (handleStatsChange (statsConfig page) c) (gameOptions page)
    (link page) (user page).

Section WithApi.
Variable origin : string.
Variable api : GameBody → SaveAnswer.

(** The copy of the three selections written into the body. *)
Definition copyStatsConfig (cfg : StatsConfig) : StatsConfig :=
  mkStatsConfig
    (mkSelection (selected (cfg_info cfg)) (deselected (cfg_info cfg)))
    (mkSelection (selected (cfg_hitting cfg)) (deselected (cfg_hitting cfg)))
    (mkSelection (selected (cfg_pitching cfg)) (deselected (cfg_pitching cfg))).

Definition gameBody (player : PlayerSearch.Player) (page : Page) : GameBody :=
  mkGameBody
    ("Game for " +:+ PlayerSearch.fullName player)
    (match user page with
     | Some u => if decide (userId u = "") then None else Some (userId u)
     | None => None
     end)
    (PlayerSearch.id player)
    (copyStatsConfig (statsConfig page))
    (maxGuesses (gameOptions page))
    (mkHint (from_option enabled false (hint (gameOptions page)))
       (from_option text "" (hint (gameOptions page)))).

(** [saveGameConfiguration]: the new state and the requests sent. *)
Definition saveGameConfiguration (page : Page) : Page * list GameBody :=
  match selectedPlayer page with
  | None => (page, [])
  | Some player =>
      let body := gameBody player page in
      match api body with
      | Ok (Some gameId) =>
          (mkPage (selectedPlayer page) (statsConfig page) (gameOptions page)
             (origin +:+ "/game/" +:+ gameId) (user page), [body])
      | Ok None | NotOk | SaveThrew => (page, [body])
      end
  end.

End WithApi.
End CreateGamePage.

(** ** A creator's session

    The page renders the component with [configurable] set, passes its
    [statsConfig] as the selections and [handleStatsChange] as
    [onStatsChange]; what the creator does is a run of these actions. *)
Module Session.

Inductive Action : Type :=
  | Load (playerId : Z)
  | Toggle (key : string) (type : StatType)
  | ToggleAll (type : StatType) (selectedKeys : list string).

Record State : Type := mkState {
  component : Local;
  config : StatsConfig
}.

Definition initial : State := mkState initialLocal initialStatsConfig.

Section WithMappings.
Variables playerInfoMappings hittingStatMappings pitchingStatMappings
  : gmap string StatMapping.
Variable fetchPlayerData : Z → Fetched.

Definition step (s : State) (a : Action) : State :=
  match a with
  | Load playerId =>
      let '(st, calls) :=
        PlayerStats.loadPlayerData hittingStatMappings pitchingStatMappings
          fetchPlayerData playerId true (config s) (component s) in
      mkState st (applyStatsChanges (config s) calls)
  | Toggle key type =>
      mkState (component s)
        (handleStatsChange (config s) (PlayerStats.handleToggle (config s) key type))
  | ToggleAll type selectedKeys =>
      mkState (component s)
        (handleStatsChange (config s)
           (PlayerStats.handleToggleAll playerInfoMappings hittingStatMappings
              pitchingStatMappings (component s) type selectedKeys))
  end.

Definition run (s : State) (actions : list Action) : State := foldl step s actions.

End WithMappings.
End Session.

(** No key is both selected and deselected. *)
Definition disjointSides (s : Selection) : Prop :=
  ∀ key, ¬ (key ∈ selected s ∧ key ∈ deselected s).

(** Neither list names a key twice, and no key is in both. *)
Definition wellFormed (s : Selection) : Prop :=
  NoDup (selected s) ∧ NoDup (deselected s) ∧ disjointSides s.

(** The two selections hold the same keys on the same sides. *)
Definition sameKeys (s1 s2 : Selection) : Prop :=
  (∀ key, key ∈ selected s1 ↔ key ∈ selected s2)
  ∧ (∀ key, key ∈ deselected s1 ↔ key ∈ deselected s2).

(** The keys whose values the view of a player keeps. *)
Definition kept (selectedKeys : list string) (key : string) : bool :=
  includes selectedKeys key
  || (bool_decide (key = "teamDetails") && includes selectedKeys "team").

(** A request to list the guesses of a game, and one with a method the
    route does not serve. *)
Definition listRequest : GuessesRoute.Request :=
  GuessesRoute.mkRequest "GET" (GuessesRoute.mkRow None None None None)
    (Some (VStr "game-1")).

Definition deleteRequest : GuessesRoute.Request :=
  GuessesRoute.mkRequest "DELETE" (GuessesRoute.mkRow None None None None) None.

(** A page on which a signed-in creator has picked a player and revealed the
    team. *)
Definition somePage : CreateGamePage.Page :=
  CreateGamePage.mkPage (Some (PlayerSearch.mkPlayer 7 "Jo Doe")) Samples.teamRevealed
    (CreateGamePage.mkGameOptions 3 None) "" (Some (CreateGamePage.mkUser "user-1")).

(** A server that stores every game under the same identifier. *)
Definition someApi (body : CreateGamePage.GameBody) : CreateGamePage.SaveAnswer :=
  CreateGamePage.Ok (Some "g1").

(** The first record of a namespace in the data of the provider. *)
Definition firstRecordOf (data : PlayerData) (type : StatType) : option JsObject :=
  match type with
  | info => d_playerInfo data
  | hitting => head (d_hittingStats data)
  | pitching => head (d_pitchingStats data)
  end.





(** What the page holds once "hr" has been shown and "avg" hidden. *)
Definition pageWithHrShown : StatsConfig :=
  mkStatsConfig (mkSelection [] []) (mkSelection ["hr"] ["avg"]) (mkSelection [] []).

(** A selection that was being edited, for the evaluations below. *)
Definition someSession : list Session.Action :=
  [Session.Load 7; Session.Toggle "team" info; Session.Toggle "hr" hitting;
   Session.ToggleAll pitching ["era"]].

(** * Properties *)

(** ** Arrays *)

Lemma includes_true (arr : list string) (x : string) : includes arr x = true ↔ x ∈ arr.
Proof. unfold includes. apply bool_decide_eq_true. Qed.

Lemma includes_false (arr : list string) (x : string) : includes arr x = false ↔ x ∉ arr.
Proof. unfold includes. apply bool_decide_eq_false. Qed.

Lemma elem_of_without (x y : string) (arr : list string) :
  y ∈ without x arr ↔ y ∈ arr ∧ y ≠ x.
Proof. unfold without. rewrite list_elem_of_filter. tauto. Qed.

Lemma elem_of_push (x y : string) (arr : list string) :
  y ∈ push arr x ↔ y ∈ arr ∨ y = x.
Proof. unfold push. rewrite elem_of_app, list_elem_of_singleton. tauto. Qed.

(** Membership goals over [includes], [without] and [push]. *)
Ltac arrays :=
  repeat match goal with
  | H : includes _ _ = true |- _ => apply includes_true in H
  | H : includes _ _ = false |- _ => apply includes_false in H
  end;
  rewrite ?elem_of_without, ?elem_of_push, ?elem_of_cons, ?elem_of_nil in *;
  intuition (try discriminate; try congruence).

(** ** The sort *)

Section ArraySortFacts.
Context {A : Type} (compareFn : A → A → Z) (key : A → Z).
Hypothesis compareFn_key : ∀ a b, compareFn a b = key a - key b.

Let byKey : relation A := ascending key.

Lemma sortInsert_Permutation (x : A) (l : list A) : sortInsert compareFn x l ≡ₚ x :: l.
Proof.
  induction l as [|y l IH]; simpl; [done|].
  case_decide; [done|]. rewrite IH. apply Permutation_swap.
Qed.

Lemma Array_sort_Permutation (l : list A) : Array_sort compareFn l ≡ₚ l.
Proof.
  induction l as [|x l IH]; simpl; [done|].
  rewrite sortInsert_Permutation. by f_equiv.
Qed.

Lemma sortInsert_StronglySorted (x : A) (l : list A) :
  StronglySorted byKey l → StronglySorted byKey (sortInsert compareFn x l).
Proof.
  induction 1 as [|y l Hl IH Hy]; simpl.
  - repeat constructor.
  - case_decide as Hc; rewrite compareFn_key in Hc.
    + constructor; [by constructor|].
      constructor; [unfold byKey, ascending; lia|].
      eapply Forall_impl; [exact Hy|]. unfold byKey, ascending. intros z Hz. simpl in Hz. lia.
    + constructor; [exact IH|].
      rewrite sortInsert_Permutation. constructor; [unfold byKey, ascending; lia | exact Hy].
Qed.

Lemma Array_sort_StronglySorted (l : list A) : StronglySorted byKey (Array_sort compareFn l).
Proof.
  induction l as [|x l IH]; simpl; [constructor|].
  by apply sortInsert_StronglySorted.
Qed.

(** Stability: elements of one priority keep their relative order. *)
Lemma sortInsert_stable (p : Z) (x : A) (l : list A) :
  filter (λ a, key a = p) (sortInsert compareFn x l) = filter (λ a, key a = p) (x :: l).
Proof.
  induction l as [|y l IH]; simpl; [done|].
  case_decide as Hc; [done|]. rewrite compareFn_key in Hc.
  rewrite (filter_cons _ y), IH, !filter_cons.
  repeat case_decide; try done; lia.
Qed.

Lemma Array_sort_stable (p : Z) (l : list A) :
  filter (λ a, key a = p) (Array_sort compareFn l) = filter (λ a, key a = p) l.
Proof.
  induction l as [|x l IH]; simpl; [done|].
  rewrite sortInsert_stable, !filter_cons, IH. done.
Qed.

(** A list sorted by priority is determined by its priority classes, so
    every stable sort by this comparator returns what [Array_sort] does. *)
Lemma sorted_stable_unique (l1 l2 : list A) :
  StronglySorted byKey l1 → StronglySorted byKey l2 →
  (∀ p, filter (λ a, key a = p) l1 = filter (λ a, key a = p) l2) →
  l1 = l2.
Proof.
  intros H1. revert l2. induction H1 as [|x l1 Hl1 IH Hx]; intros l2 H2 Heq.
  - destruct l2 as [|y l2]; [done|].
    specialize (Heq (key y)). rewrite filter_nil, filter_cons_True in Heq; done.
  - destruct H2 as [|y l2 Hl2 Hy].
    { specialize (Heq (key x)). rewrite filter_nil, filter_cons_True in Heq; done. }
    assert (key x = key y) as Hk.
    { assert (x ∈ y :: l2) as Hin2.
      { pose proof (Heq (key x)) as E. rewrite (filter_cons_True _ x) in E by done.
        assert (x ∈ filter (λ a, key a = key x) (y :: l2)) as Hin by (rewrite <- E; left).
        apply list_elem_of_filter in Hin. tauto. }
      assert (y ∈ x :: l1) as Hin1.
      { pose proof (Heq (key y)) as E. rewrite (filter_cons_True _ y) in E by done.
        assert (y ∈ filter (λ a, key a = key y) (x :: l1)) as Hin by (rewrite E; left).
        apply list_elem_of_filter in Hin. tauto. }
      apply elem_of_cons in Hin2 as [->|Hin2]; [done|].
      apply elem_of_cons in Hin1 as [->|Hin1]; [done|].
      rewrite Forall_forall in Hx, Hy.
      specialize (Hx _ Hin1). specialize (Hy _ Hin2). unfold byKey, ascending in Hx, Hy. lia. }
    pose proof (Heq (key x)) as E.
    rewrite (filter_cons_True _ x), (filter_cons_True _ y) in E by done.
    injection E as -> E. f_equal. apply IH; [done|].
    intros p. destruct (decide (key y = p)) as [<-|Hp]; [done|].
    specialize (Heq p). by rewrite !filter_cons_False in Heq.
Qed.

Lemma Array_sort_unique (l l' : list A) :
  StronglySorted byKey l' →
  (∀ p, filter (λ a, key a = p) l' = filter (λ a, key a = p) l) →
  l' = Array_sort compareFn l.
Proof.
  intros Hs Hst. apply sorted_stable_unique; [done|apply Array_sort_StronglySorted|].
  intros p. by rewrite Array_sort_stable.
Qed.

(** In a list sorted by priority, an element of smaller priority stands
    before every element of larger priority. *)
Lemma StronglySorted_before (l : list A) (i j : nat) (a b : A) :
  StronglySorted byKey l → l !! i = Some a → l !! j = Some b → key a < key b →
  (i < j)%nat.
Proof.
  intros Hs. revert i j. induction Hs as [|x l Hl IH Hx]; intros i j Hi Hj Hlt; [done|].
  destruct i as [|i], j as [|j]; simpl in *.
  - simplify_eq. lia.
  - lia.
  - simplify_eq. rewrite Forall_forall in Hx.
    assert (a ∈ l) as Ha by (eapply list_elem_of_lookup_2; eauto).
    specialize (Hx _ Ha). unfold byKey, ascending in Hx. lia.
  - apply (IH i j) in Hlt; [lia|done..].
Qed.
End ArraySortFacts.

(** ** Key enumeration *)
Section SortedKeys.
Import PlayerStats.
Variable mappings : gmap string StatMapping.

Lemma key_in_true (key : string) : key_in key mappings = true ↔ is_Some (mappings !! key).
Proof. unfold key_in. apply bool_decide_eq_true. Qed.

(** The truthiness test of the later revision adds nothing to [in]. *)
Lemma mapped_filter (key : string) :
  key_in key mappings && mappingTruthy mappings key = key_in key mappings.
Proof.
  unfold key_in, mappingTruthy. destruct (mappings !! key) eqn:E; [|done].
  by rewrite andb_true_r.
Qed.

Lemma getSortedKeys_Permutation (obj : JsObject) :
  getSortedKeys obj mappings ≡ₚ filter (λ key, is_Some (mappings !! key)) (Object_keys obj).
Proof.
  unfold getSortedKeys. rewrite Array_sort_Permutation.
  erewrite list_filter_iff; [done|].
  intros k. rewrite mapped_filter. unfold key_in. apply bool_decide_spec.
Qed.

Lemma elem_of_getSortedKeys (obj : JsObject) (key : string) :
  key ∈ getSortedKeys obj mappings ↔ key ∈ Object_keys obj ∧ is_Some (mappings !! key).
Proof. rewrite getSortedKeys_Permutation, list_elem_of_filter. tauto. Qed.

Lemma getSortedKeys_StronglySorted (obj : JsObject) :
  StronglySorted (ascending (orderOrZero mappings)) (getSortedKeys obj mappings).
Proof. unfold getSortedKeys. by apply Array_sort_StronglySorted. Qed.

(** The earlier revision enumerates the same keys in the same order. *)
Lemma getSortedKeys_earlier (obj : JsObject) :
  PlayerStatsEarlier.getSortedKeys obj mappings = getSortedKeys obj mappings.
Proof.
  unfold PlayerStatsEarlier.getSortedKeys, getSortedKeys. f_equal.
  apply list_filter_iff. intros k. by rewrite mapped_filter.
Qed.
End SortedKeys.

(** ** Toggling *)
Section Toggling.
Import PlayerStats.

Lemma afterCall_eq (prev : StatsConfig) (c : StatsChange) :
  afterCall prev c = mkSelection (sc_selected c) (sc_deselected c).
Proof. unfold afterCall, handleStatsChange. by destruct (sc_type c). Qed.

Lemma selection_of_handleStatsChange_ne (prev : StatsConfig) (c : StatsChange) (type : StatType) :
  type ≠ sc_type c → selection_of (handleStatsChange prev c) type = selection_of prev type.
Proof. unfold handleStatsChange. by destruct (sc_type c), type. Qed.

Lemma toggleAttribute_type (props : StatsConfig) (attribute : string) (type : StatType) :
  sc_type (toggleAttribute props attribute type) = type.
Proof.
  unfold toggleAttribute.
  destruct (includes _ attribute); case_decide; done.
Qed.

Lemma toggleAttribute_team (props : StatsConfig) (type : StatType) :
  let c := toggleAttribute props "team" type in
  ("team" ∈ sc_selected c ∧ "teamDetails" ∈ sc_selected c
   ∧ ("team" ∉ sc_deselected c) ∧ ("teamDetails" ∉ sc_deselected c))
  ∨ (("team" ∉ sc_selected c) ∧ ("teamDetails" ∉ sc_selected c)
     ∧ "team" ∈ sc_deselected c ∧ "teamDetails" ∈ sc_deselected c).
Proof.
  unfold toggleAttribute.
  set (sel := selected (selection_of props type)).
  set (desel := deselected (selection_of props type)).
  destruct (includes sel "team") eqn:Hteam; simpl.
  - right.
    destruct (includes (push desel "team") "teamDetails") eqn:Htd; simpl.
    + arrays.
    + arrays.
  - left.
    destruct (includes (push sel "team") "teamDetails") eqn:Htd; simpl.
    + arrays.
    + arrays.
Qed.

Lemma toggleAttribute_other (props : StatsConfig) (attribute key : string) (type : StatType) :
  attribute ≠ "team" → key ≠ attribute →
  let c := toggleAttribute props attribute type in
  (key ∈ sc_selected c ↔ key ∈ selected (selection_of props type))
  ∧ (key ∈ sc_deselected c ↔ key ∈ deselected (selection_of props type)).
Proof.
  intros Hteam Hkey. unfold toggleAttribute.
  destruct (includes _ attribute); case_decide; try done; simpl; arrays.
Qed.
End Toggling.

(** ** The paired field *)
Section PairedField.
Import PlayerStats.
Variables playerInfoMappings hittingStatMappings pitchingStatMappings
  : gmap string StatMapping.

Lemma handleToggleAll_selected (st : Local) (type : StatType) (selectedKeys : list string) :
  sc_selected
    (handleToggleAll playerInfoMappings hittingStatMappings pitchingStatMappings
       st type selectedKeys) = selectedKeys.
Proof. done. Qed.

(** C1, as amended. A toggle of any key other than "teamDetails" keeps
    "teamDetails" on the side of "team"; a bulk toggle makes the selected
    keys exactly the requested ones, so that afterwards "teamDetails" is
    selected together with "team" exactly when the request holds both keys
    or neither. *)
Theorem C1_paired_field (props : StatsConfig) (st : Local) (type : StatType)
    (attribute : string) (selectedKeys : list string) :
  attribute ≠ "teamDetails" →
  sameSide (selection_of props type) →
  sameSide (afterCall props (toggleAttribute props attribute type))
  ∧ selected (afterCall props
      (handleToggleAll playerInfoMappings hittingStatMappings pitchingStatMappings
         st type selectedKeys)) = selectedKeys
  ∧ (selectedTogether (afterCall props
       (handleToggleAll playerInfoMappings hittingStatMappings pitchingStatMappings
          st type selectedKeys))
     ↔ ("teamDetails" ∈ selectedKeys ↔ "team" ∈ selectedKeys)).
Proof.
  intros Hattr [Hsel Hdesel]. rewrite !afterCall_eq. simpl. split; [|done].
  unfold sameSide. simpl.
  destruct (decide (attribute = "team")) as [->|Hteam].
  - pose proof (toggleAttribute_team props type) as Ht. simpl in Ht. tauto.
  - pose proof (toggleAttribute_other props attribute "team" type Hteam) as Ht.
    pose proof (toggleAttribute_other props attribute "teamDetails" type Hteam) as Hd.
    simpl in Ht, Hd. specialize (Ht ltac:(congruence)). specialize (Hd ltac:(congruence)).
    tauto.
Qed.
End PairedField.

(** Toggling "teamDetails" itself moves it alone: whenever the two keys were
    selected together, they no longer are. *)
Lemma toggleAttribute_teamDetails (props : StatsConfig) (type : StatType) :
  selectedTogether (selection_of props type) →
  ¬ selectedTogether
      (afterCall props (PlayerStats.toggleAttribute props "teamDetails" type)).
Proof.
  unfold selectedTogether. rewrite afterCall_eq. simpl.
  unfold PlayerStats.toggleAttribute.
  destruct (includes _ "teamDetails") eqn:Htd; simpl; arrays.
Qed.

(** The three biographical keys start hidden; revealing the team reveals its
    details, and hiding it hides them again. *)
Example team_scenario :
  let start :=
    mkStatsConfig (mkSelection [] ["age"; "team"; "teamDetails"])
      (mkSelection [] []) (mkSelection [] []) in
  let shown := handleStatsChange start (PlayerStats.toggleAttribute start "team" info) in
  let hidden := handleStatsChange shown (PlayerStats.toggleAttribute shown "team" info) in
  cfg_info shown = mkSelection ["team"; "teamDetails"] ["age"]
  ∧ cfg_info hidden = mkSelection [] ["age"; "team"; "teamDetails"].
Proof. split; by vm_compute. Qed.

Lemma C1_paired_field_witness :
  "team" ≠ "teamDetails"
  ∧ sameSide (selection_of Samples.teamRevealed info)
  ∧ (sameSide (afterCall Samples.teamRevealed
                 (PlayerStats.toggleAttribute Samples.teamRevealed "team" info))
     ∧ selected (afterCall Samples.teamRevealed
         (PlayerStats.handleToggleAll Samples.infoMappings Samples.hittingMappings
            Samples.pitchingMappings Samples.loadedLocal info ["team"])) = ["team"]
     ∧ (selectedTogether (afterCall Samples.teamRevealed
          (PlayerStats.handleToggleAll Samples.infoMappings Samples.hittingMappings
             Samples.pitchingMappings Samples.loadedLocal info ["team"]))
        ↔ ("teamDetails" ∈ ["team"] ↔ "team" ∈ ["team"]))).
Proof.
  assert ("team" ≠ "teamDetails") as Hne by discriminate.
  assert (sameSide (selection_of Samples.teamRevealed info)) as Hs.
  { unfold sameSide. simpl. split; arrays. }
  split; [exact Hne|]. split; [exact Hs|].
  exact (C1_paired_field Samples.infoMappings Samples.hittingMappings
           Samples.pitchingMappings Samples.teamRevealed Samples.loadedLocal info
           "team" ["team"] Hne Hs).
Defined.

(** Toggling "teamDetails" itself moves it away from "team", and a bulk
    toggle that requests "team" alone leaves "teamDetails" in neither set. *)
Lemma C1_counterexample :
  sameSide (selection_of Samples.teamRevealed info)
  ∧ afterCall Samples.teamRevealed
      (PlayerStats.toggleAttribute Samples.teamRevealed "teamDetails" info)
    = mkSelection ["team"] ["age"; "teamDetails"]
  ∧ ¬ selectedTogether
        (afterCall Samples.teamRevealed
           (PlayerStats.toggleAttribute Samples.teamRevealed "teamDetails" info))
  ∧ afterCall Samples.teamRevealed
      (PlayerStats.handleToggleAll Samples.infoMappings Samples.hittingMappings
         Samples.pitchingMappings Samples.loadedLocal info ["team"])
    = mkSelection ["team"] ["age"]
  ∧ ¬ selectedTogether
        (afterCall Samples.teamRevealed
           (PlayerStats.handleToggleAll Samples.infoMappings Samples.hittingMappings
              Samples.pitchingMappings Samples.loadedLocal info ["team"])).
Proof.
  split; [unfold sameSide; simpl; split; arrays|].
  split; [by vm_compute|].
  split.
  { replace (afterCall _ _) with (mkSelection ["team"] ["age"; "teamDetails"]) by (by vm_compute).
    unfold selectedTogether. simpl. arrays. }
  split; [by vm_compute|].
  replace (afterCall _ _) with (mkSelection ["team"] ["age"]) by (by vm_compute).
  unfold selectedTogether. simpl. arrays.
Qed.

(** ** Initialization *)
Section Loading.
Import PlayerStats.
Variables hittingStatMappings pitchingStatMappings : gmap string StatMapping.
Variable fetchPlayerData : Z → Fetched.

Local Abbreviation loadPlayerData :=
  (loadPlayerData hittingStatMappings pitchingStatMappings fetchPlayerData).
Local Abbreviation initialize := (initialize hittingStatMappings pitchingStatMappings).

(** When the data arrives with a biographical record, a configurable
    component runs the initialization block. *)
Lemma loadPlayerData_resolved (playerId : Z) (configurable : bool) (props : StatsConfig)
    (st : Local) (data : PlayerData) (pinfo : JsObject) :
  playerId ≠ 0 → fetchPlayerData playerId = Resolved data → d_playerInfo data = Some pinfo →
  loadPlayerData playerId configurable props st
  = (mkLocal (Some pinfo) (d_hittingStats data) (d_pitchingStats data) false None,
     if configurable then initialize props data pinfo else []).
Proof.
  intros Hid Hfetch Hinfo. unfold PlayerStats.loadPlayerData.
  case_decide; [done|]. by rewrite Hfetch, Hinfo.
Qed.

(** The three namespaces after the calls of the initialization block:
    later calls never touch an earlier namespace. *)
Lemma initialize_info (props cur : StatsConfig) (data : PlayerData) (pinfo : JsObject) :
  cfg_info (applyStatsChanges cur (initialize props data pinfo))
  = mkSelection [] (Object_keys pinfo).
Proof.
  unfold PlayerStats.initialize, applyStatsChanges.
  destruct (d_hittingStats data), (d_pitchingStats data);
    repeat (destruct (_ && _)); done.
Qed.

Lemma initialize_hitting (props cur : StatsConfig) (data : PlayerData) (pinfo : JsObject) :
  cfg_hitting (applyStatsChanges cur (initialize props data pinfo))
  = match d_hittingStats data with
    | first :: _ =>
        if bool_decide (length (selected (cfg_hitting props)) = 0%nat)
           && bool_decide (length (deselected (cfg_hitting props)) = 0%nat)
        then mkSelection
               (filter (λ key, key_in key hittingStatMappings) (Object_keys first)) []
        else cfg_hitting cur
    | [] => cfg_hitting cur
    end.
Proof.
  unfold PlayerStats.initialize, applyStatsChanges.
  destruct (d_hittingStats data), (d_pitchingStats data);
    repeat (destruct (_ && _)); done.
Qed.

Lemma initialize_pitching (props cur : StatsConfig) (data : PlayerData) (pinfo : JsObject) :
  cfg_pitching (applyStatsChanges cur (initialize props data pinfo))
  = match d_pitchingStats data with
    | first :: _ =>
        if bool_decide (length (selected (cfg_pitching props)) = 0%nat)
           && bool_decide (length (deselected (cfg_pitching props)) = 0%nat)
        then mkSelection
               (filter (λ key, key_in key pitchingStatMappings) (Object_keys first)) []
        else cfg_pitching cur
    | [] => cfg_pitching cur
    end.
Proof.
  unfold PlayerStats.initialize, applyStatsChanges.
  destruct (d_hittingStats data), (d_pitchingStats data);
    repeat (destruct (_ && _)); done.
Qed.

(** The guard of the hitting and pitching namespaces: a selection that is
    not empty is left as it is. *)
Lemma guard_false (s : Selection) :
  selected s ≠ [] ∨ deselected s ≠ [] →
  bool_decide (length (selected s) = 0%nat) && bool_decide (length (deselected s) = 0%nat)
  = false.
Proof.
  intros H. apply andb_false_iff.
  rewrite !bool_decide_eq_false, !length_zero_iff_nil. tauto.
Qed.

Lemma initialize_stats_guarded (props : StatsConfig) (data : PlayerData) (pinfo : JsObject) :
  (selected (cfg_hitting props) ≠ [] ∨ deselected (cfg_hitting props) ≠ [] →
   cfg_hitting (applyStatsChanges props (initialize props data pinfo)) = cfg_hitting props)
  ∧ (selected (cfg_pitching props) ≠ [] ∨ deselected (cfg_pitching props) ≠ [] →
     cfg_pitching (applyStatsChanges props (initialize props data pinfo))
     = cfg_pitching props).
Proof.
  split; intros H.
  - rewrite initialize_hitting, guard_false by done. by destruct (d_hittingStats data).
  - rewrite initialize_pitching, guard_false by done. by destruct (d_pitchingStats data).
Qed.

(** C2. Once the data has arrived, a configurable component makes every key
    of the biographical record deselected and none selected. *)
Theorem C2_info_starts_deselected (playerId : Z) (props cur : StatsConfig) (st : Local)
    (data : PlayerData) (pinfo : JsObject) :
  playerId ≠ 0 → fetchPlayerData playerId = Resolved data → d_playerInfo data = Some pinfo →
  Object_keys pinfo ≠ [] →
  let calls := (loadPlayerData playerId true props st).2 in
  selected (cfg_info (applyStatsChanges cur calls)) = []
  ∧ deselected (cfg_info (applyStatsChanges cur calls)) = Object_keys pinfo.
Proof.
  intros Hid Hfetch Hinfo _ calls. subst calls.
  rewrite (loadPlayerData_resolved _ _ _ _ data pinfo) by done.
  cbv beta iota delta [snd]. by rewrite initialize_info.
Qed.

(** C4. From an empty hitting or pitching selection and a first record, the
    initialization selects exactly the record's keys that have a display
    mapping, in the record's order, and deselects nothing. *)
Theorem C4_stats_start_selected (playerId : Z) (props cur : StatsConfig) (st : Local)
    (data : PlayerData) (pinfo : JsObject) (type : StatType) (first : JsObject)
    (rest : list JsObject) :
  playerId ≠ 0 → fetchPlayerData playerId = Resolved data → d_playerInfo data = Some pinfo →
  statsOf data type = first :: rest →
  selection_of props type = mkSelection [] [] →
  let after :=
    selection_of (applyStatsChanges cur (loadPlayerData playerId true props st).2) type in
  selected after = filter (λ key, is_Some (statMappingsOf hittingStatMappings pitchingStatMappings type !! key)) (Object_keys first)
  ∧ deselected after = []
  ∧ (∀ key, key ∈ selected after ∨ key ∈ deselected after
            ↔ key ∈ Object_keys first ∧ is_Some (statMappingsOf hittingStatMappings pitchingStatMappings type !! key))
  ∧ (∀ key, ¬ (key ∈ selected after ∧ key ∈ deselected after)).
Proof.
  intros Hid Hfetch Hinfo Hfirst Hempty after.
  assert (after = mkSelection
            (filter (λ key, is_Some (statMappingsOf hittingStatMappings pitchingStatMappings type !! key)) (Object_keys first)) [])
    as ->.
  { subst after. rewrite (loadPlayerData_resolved _ _ _ _ data pinfo) by done.
    cbv beta iota delta [snd].
    assert (∀ (m : gmap string StatMapping) (l : list string),
              filter (λ key, key_in key m) l = filter (λ key, is_Some (m !! key)) l) as Hf.
    { intros m l. apply list_filter_iff. intros k. unfold key_in. apply bool_decide_spec. }
    destruct type; [done| |]; cbn [selection_of statsOf statMappingsOf] in *.
    - by rewrite initialize_hitting, Hfirst, Hempty, <- Hf.
    - by rewrite initialize_pitching, Hfirst, Hempty, <- Hf. }
  simpl. split; [done|]. split; [done|]. split.
  - intros key. rewrite list_elem_of_filter, elem_of_nil. tauto.
  - intros key. rewrite elem_of_nil. tauto.
Qed.
End Loading.

Lemma C2_info_starts_deselected_witness :
  7 ≠ 0
  ∧ Samples.someFetch 7 = Resolved Samples.someData
  ∧ d_playerInfo Samples.someData = Some Samples.somePlayerInfo
  ∧ Object_keys Samples.somePlayerInfo ≠ []
  ∧ (let calls :=
       (PlayerStats.loadPlayerData Samples.hittingMappings Samples.pitchingMappings
          Samples.someFetch 7 true initialStatsConfig initialLocal).2 in
     selected (cfg_info (applyStatsChanges initialStatsConfig calls)) = []
     ∧ deselected (cfg_info (applyStatsChanges initialStatsConfig calls))
       = Object_keys Samples.somePlayerInfo).
Proof.
  split; [lia|]. split; [reflexivity|]. split; [reflexivity|]. split; [discriminate|].
  apply (C2_info_starts_deselected Samples.hittingMappings Samples.pitchingMappings
           Samples.someFetch 7 initialStatsConfig initialStatsConfig initialLocal
           Samples.someData Samples.somePlayerInfo);
    [lia | reflexivity | reflexivity | discriminate].
Defined.

Lemma C4_stats_start_selected_witness :
  7 ≠ 0
  ∧ Samples.someFetch 7 = Resolved Samples.someData
  ∧ d_playerInfo Samples.someData = Some Samples.somePlayerInfo
  ∧ statsOf Samples.someData hitting = [Samples.someHittingRecord]
  ∧ selection_of initialStatsConfig hitting = mkSelection [] []
  ∧ (let after :=
       selection_of
         (applyStatsChanges initialStatsConfig
            (PlayerStats.loadPlayerData Samples.hittingMappings Samples.pitchingMappings
               Samples.someFetch 7 true initialStatsConfig initialLocal).2) hitting in
     selected after
     = filter (λ key, is_Some (statMappingsOf Samples.hittingMappings
                                 Samples.pitchingMappings hitting !! key))
         (Object_keys Samples.someHittingRecord)
     ∧ deselected after = []
     ∧ (∀ key, key ∈ selected after ∨ key ∈ deselected after
               ↔ key ∈ Object_keys Samples.someHittingRecord
                 ∧ is_Some (statMappingsOf Samples.hittingMappings
                              Samples.pitchingMappings hitting !! key))
     ∧ (∀ key, ¬ (key ∈ selected after ∧ key ∈ deselected after))).
Proof.
  split; [lia|]. split; [reflexivity|]. split; [reflexivity|].
  split; [reflexivity|]. split; [reflexivity|].
  apply (C4_stats_start_selected Samples.hittingMappings Samples.pitchingMappings
           Samples.someFetch 7 initialStatsConfig initialStatsConfig initialLocal
           Samples.someData Samples.somePlayerInfo hitting Samples.someHittingRecord []);
    [lia | reflexivity | reflexivity | reflexivity | reflexivity].
Defined.

(** The sample hitting record starts with its two mapped keys selected; its
    unmapped key is in neither list. *)
Example hitting_initialized :
  cfg_hitting
    (applyStatsChanges initialStatsConfig
       (PlayerStats.loadPlayerData Samples.hittingMappings Samples.pitchingMappings
          Samples.someFetch 7 true initialStatsConfig initialLocal).2)
  = mkSelection ["avg"; "hr"] [].
Proof. by vm_compute. Qed.

(** C3 fails on the biographical namespace: a second load over a selection
    that is not empty leaves the hitting and pitching selections as they are,
    but puts every biographical key back into the deselected list, so the
    revealed "team" and "teamDetails" are hidden again. *)
Theorem C3_info_selection_reset :
  let props := Samples.teamRevealed in
  let calls :=
    (PlayerStats.loadPlayerData Samples.hittingMappings Samples.pitchingMappings
       Samples.someFetch 7 true props Samples.loadedLocal).2 in
  calls = [mkStatsChange info [] ["age"; "team"; "teamDetails"]]
  ∧ cfg_info props = mkSelection ["team"; "teamDetails"] ["age"]
  ∧ cfg_info (applyStatsChanges props calls) = mkSelection [] ["age"; "team"; "teamDetails"]
  ∧ cfg_info (applyStatsChanges props calls) ≠ cfg_info props
  ∧ cfg_hitting (applyStatsChanges props calls) = cfg_hitting props
  ∧ cfg_pitching (applyStatsChanges props calls) = cfg_pitching props.
Proof.
  cbv zeta.
  assert ((PlayerStats.loadPlayerData Samples.hittingMappings Samples.pitchingMappings
             Samples.someFetch 7 true Samples.teamRevealed Samples.loadedLocal).2
          = [mkStatsChange info [] ["age"; "team"; "teamDetails"]]) as -> by (by vm_compute).
  repeat split; try done.
Qed.

(** ** Bulk toggles *)
Section ToggleAll.
Import PlayerStats.
Variables playerInfoMappings hittingStatMappings pitchingStatMappings
  : gmap string StatMapping.

Local Abbreviation handleToggleAll :=
  (handleToggleAll playerInfoMappings hittingStatMappings pitchingStatMappings).
Local Abbreviation allKeysOf :=
  (allKeysOf playerInfoMappings hittingStatMappings pitchingStatMappings).

(** The keys a bulk toggle ranges over: the mapped keys of the namespace's
    first record. *)
Lemma elem_of_allKeysOf (st : Local) (type : StatType) (key : string) :
  key ∈ allKeysOf st type
  ↔ match type with
    | info =>
        ∃ pinfo, playerInfo st = Some pinfo
                 ∧ key ∈ Object_keys pinfo ∧ is_Some (playerInfoMappings !! key)
    | hitting =>
        ∃ first, head (hittingStats st) = Some first
                 ∧ key ∈ Object_keys first ∧ is_Some (hittingStatMappings !! key)
    | pitching =>
        ∃ first, head (pitchingStats st) = Some first
                 ∧ key ∈ Object_keys first ∧ is_Some (pitchingStatMappings !! key)
    end.
Proof.
  unfold PlayerStats.allKeysOf.
  destruct type;
    [ destruct (playerInfo st) as [first|]
    | destruct (hittingStats st) as [|first ?]
    | destruct (pitchingStats st) as [|first ?] ];
    simpl; rewrite ?elem_of_getSortedKeys, ?elem_of_nil;
    (split; [ try done; intros [? ?]; by exists first
            | intros (? & [= <-] & ? & ?); done ]).
Qed.


End ToggleAll.



(** With no keys requested, the three biographical keys of the sample record
    all become deselected, in priority order. *)
Example toggle_all_empty :
  afterCall Samples.teamRevealed
    (PlayerStats.handleToggleAll Samples.infoMappings Samples.hittingMappings
       Samples.pitchingMappings Samples.loadedLocal info [])
  = mkSelection [] ["team"; "teamDetails"; "age"].
Proof. by vm_compute. Qed.

(** ** Ordering of the keys *)
Section Ordering.
Import PlayerStats.

(** C7, as amended. The enumeration lists the record's mapped keys in
    ascending order of priority, equal priorities in the record's order; a
    key whose mapping has no explicit priority counts as priority zero and
    therefore stands before every key of positive priority. *)
Theorem C7_sorted_keys (obj : JsObject) (mappings : gmap string StatMapping) :
  StronglySorted (ascending (orderOrZero mappings)) (getSortedKeys obj mappings)
  ∧ getSortedKeys obj mappings
    ≡ₚ filter (λ key, is_Some (mappings !! key)) (Object_keys obj)
  ∧ (∀ p, filter (λ key, orderOrZero mappings key = p) (getSortedKeys obj mappings)
          = filter (λ key, orderOrZero mappings key = p)
              (filter (λ key, is_Some (mappings !! key)) (Object_keys obj)))
  ∧ (∀ (a b : string) (m : StatMapping) (i j : nat),
       mappings !! a = Some m → order m = None →
       0 < orderOrZero mappings b →
       getSortedKeys obj mappings !! i = Some a →
       getSortedKeys obj mappings !! j = Some b →
       orderOrZero mappings a = 0 ∧ (i < j)%nat).
Proof.
  split; [apply getSortedKeys_StronglySorted|].
  split; [apply getSortedKeys_Permutation|].
  split.
  { intros p. unfold getSortedKeys.
    rewrite (Array_sort_stable _ (orderOrZero mappings)) by done.
    f_equal. apply list_filter_iff. intros k. rewrite mapped_filter. unfold key_in.
    apply bool_decide_spec. }
  intros a b m i j Ha Hnone Hb Hi Hj.
  assert (orderOrZero mappings a = 0) as Hzero.
  { unfold orderOrZero. by rewrite Ha, Hnone. }
  split; [done|].
  eapply (StronglySorted_before (orderOrZero mappings)); eauto.
  - apply getSortedKeys_StronglySorted.
  - lia.
Qed.
End Ordering.

Lemma C7_sorted_keys_witness :
  Samples.mixedMappings !! "b" = Some (mkStatMapping "B" None)
  ∧ order (mkStatMapping "B" None) = None
  ∧ 0 < PlayerStats.orderOrZero Samples.mixedMappings "a"
  ∧ PlayerStats.getSortedKeys Samples.mixedRecord Samples.mixedMappings !! 0%nat = Some "b"
  ∧ PlayerStats.getSortedKeys Samples.mixedRecord Samples.mixedMappings !! 1%nat = Some "a"
  ∧ StronglySorted (ascending (PlayerStats.orderOrZero Samples.mixedMappings))
      (PlayerStats.getSortedKeys Samples.mixedRecord Samples.mixedMappings)
  ∧ PlayerStats.getSortedKeys Samples.mixedRecord Samples.mixedMappings
    ≡ₚ filter (λ key, is_Some (Samples.mixedMappings !! key))
         (Object_keys Samples.mixedRecord)
  ∧ PlayerStats.orderOrZero Samples.mixedMappings "b" = 0
  ∧ (0 < 1)%nat.
Proof.
  assert (Samples.mixedMappings !! "b" = Some (mkStatMapping "B" None)) as Hb
    by (by vm_compute).
  assert (0 < PlayerStats.orderOrZero Samples.mixedMappings "a") as Ha by (by vm_compute).
  assert (PlayerStats.getSortedKeys Samples.mixedRecord Samples.mixedMappings !! 0%nat
          = Some "b") as H0 by (by vm_compute).
  assert (PlayerStats.getSortedKeys Samples.mixedRecord Samples.mixedMappings !! 1%nat
          = Some "a") as H1 by (by vm_compute).
  split; [exact Hb|]. split; [reflexivity|]. split; [exact Ha|].
  split; [exact H0|]. split; [exact H1|].
  pose proof (C7_sorted_keys Samples.mixedRecord Samples.mixedMappings)
    as (Hsorted & Hperm & _ & Hfirst).
  split; [exact Hsorted|]. split; [exact Hperm|].
  exact (Hfirst "b" "a" (mkStatMapping "B" None) 0%nat 1%nat Hb eq_refl Ha H0 H1).
Defined.

(** The key without a priority is listed first, before the key of priority
    one, although the record has it second: it does not sort last. *)
Lemma C7_counterexample :
  Object_keys Samples.mixedRecord = ["a"; "b"]
  ∧ (order <$> Samples.mixedMappings !! "a") = Some (Some 1)
  ∧ (order <$> Samples.mixedMappings !! "b") = Some None
  ∧ PlayerStats.getSortedKeys Samples.mixedRecord Samples.mixedMappings = ["b"; "a"].
Proof. repeat split; by vm_compute. Qed.

(** ** Reveal events *)
Section Reveal.
Import RevealedStats.

Lemma elem_of_newStats (previous : gset string) (stats : list string) (key : string) :
  key ∈ newStats previous stats ↔ key ∈ stats ∧ key ∉ previous.
Proof.
  unfold newStats. rewrite list_elem_of_filter.
  rewrite negb_True, bool_decide_spec. tauto.
Qed.

(** The keys the effect computes from the remembered selection are exactly
    those of the current selection that the remembered one did not have. *)
Lemma newStats_difference (previousSelected currentSelected : list string) :
  (∀ key, key ∈ newStats (list_to_set previousSelected) currentSelected
          ↔ key ∈ currentSelected ∧ key ∉ previousSelected)
  ∧ list_to_set (newStats (list_to_set previousSelected) currentSelected)
    = (list_to_set currentSelected ∖ list_to_set previousSelected : gset string)
  ∧ newStats (list_to_set ["a"]) ["a"; "b"] = ["b"]
  ∧ newStats (list_to_set ["a"; "b"]) ["a"; "b"] = [].
Proof.
  split; [|split; [|split; by vm_compute]].
  - intros key. by rewrite elem_of_newStats, elem_of_list_to_set.
  - apply set_eq. intros key.
    rewrite elem_of_difference, !elem_of_list_to_set, elem_of_newStats,
      elem_of_list_to_set. done.
Qed.

(** A change of the selection shows the difference as the hook's value
    whenever no earlier highlight is still showing. *)
Lemma statsChanged_newlyRevealed (h : Hook) (stats : list string) :
  isMountedRef h = true → newlyRevealed h = ∅ →
  newlyRevealed (step h (StatsChanged stats)) = list_to_set stats ∖ previousStatsRef h.
Proof.
  intros Hm He. simpl. unfold statsEffect, statsCleanup.
  assert (list_to_set (newStats (previousStatsRef h) stats)
          = (list_to_set stats ∖ previousStatsRef h : gset string)) as Hd.
  { apply set_eq. intros key.
    by rewrite elem_of_difference, !elem_of_list_to_set, elem_of_newStats. }
  destruct (timeoutRef h); simpl; rewrite Hm; simpl;
    (case_bool_decide as Hlen; simpl; [done|]);
    rewrite He, <- Hd;
    (destruct (newStats (previousStatsRef h) stats); [done | simpl in Hlen; lia]).
Qed.

(** A highlight that is showing survives a change that reveals nothing,
    and the change has cancelled its timer. *)
Example highlight_outlives_hiding :
  let h := run (mount ["a"]) [StatsChanged ["a"; "b"]; StatsChanged ["a"]] in
  newlyRevealed h = {["b"]} ∧ timerPending h = false.
Proof. split; by vm_compute. Qed.

Lemma run_snoc (h : Hook) (es : list Event) (e : Event) :
  run h (es ++ [e]) = step (run h es) e.
Proof. unfold run. by rewrite foldl_snoc. Qed.

Lemma mount_eq (stats : list string) :
  mount stats = mkHook ∅ false false (list_to_set stats) true.
Proof.
  unfold mount, mountEffect, statsEffect. simpl.
  assert (newStats (list_to_set stats) stats = []) as ->; [|done].
  apply elem_of_nil_inv. intros key. rewrite elem_of_newStats, elem_of_list_to_set. tauto.
Qed.

Lemma run_isMounted (stats : list string) (es : list Event) :
  isMountedRef (run (mount stats) es) = true.
Proof.
  induction es as [|e es IH] using rev_ind; [by rewrite mount_eq|].
  rewrite run_snoc. destruct e as [stats'|]; simpl.
  - unfold statsEffect, statsCleanup.
    destruct (timeoutRef _); simpl; rewrite IH; simpl; by case_bool_decide.
  - unfold timeoutFires. by destruct (timerPending _).
Qed.

Lemma statsCleanup_refs (h : Hook) :
  newlyRevealed (statsCleanup h) = newlyRevealed h
  ∧ previousStatsRef (statsCleanup h) = previousStatsRef h
  ∧ isMountedRef (statsCleanup h) = isMountedRef h.
Proof. unfold statsCleanup. by destruct (timeoutRef h). Qed.

Lemma statsEffect_previousStatsRef (h : Hook) (stats : list string) :
  isMountedRef h = true → previousStatsRef (statsEffect stats h) = list_to_set stats.
Proof. intros Hm. unfold statsEffect. rewrite Hm. simpl. by case_bool_decide. Qed.

(** Whatever is newly revealed after a step was either brought in by that
    step or was showing before it. *)
Lemma step_newlyRevealed (h : Hook) (e : Event) (key : string) :
  key ∈ newlyRevealed (step h e) →
  (∃ stats, e = StatsChanged stats ∧ key ∈ stats ∧ key ∉ previousStatsRef h)
  ∨ key ∈ newlyRevealed h.
Proof.
  destruct e as [stats|]; simpl.
  - destruct (statsCleanup_refs h) as (Hn & Hp & _).
    unfold statsEffect. destruct (isMountedRef (statsCleanup h)); simpl.
    + case_bool_decide; simpl.
      * rewrite elem_of_list_to_set, elem_of_newStats, Hp. intros ?. left. by exists stats.
      * rewrite Hn. tauto.
    + rewrite Hn. tauto.
  - unfold timeoutFires. destruct (timerPending h); simpl; [|tauto].
    intros Hin. by apply not_elem_of_empty in Hin.
Qed.

(** The hook remembers the selection of the latest render. *)
Lemma run_previousStatsRef (stats : list string) (es : list Event) :
  previousStatsRef (run (mount stats) es) = list_to_set (selectionAfter stats es).
Proof.
  induction es as [|e es IH] using rev_ind; [by rewrite mount_eq|].
  rewrite run_snoc. unfold selectionAfter in *. rewrite foldl_snoc.
  destruct e as [stats'|]; simpl.
  - apply statsEffect_previousStatsRef.
    destruct (statsCleanup_refs (run (mount stats) es)) as (_ & _ & ->).
    apply run_isMounted.
  - unfold timeoutFires. by destruct (timerPending _).
Qed.

(** C6, as amended. When the selection changes, the hook compares it with
    the selection it remembered, that in force before the change. If the
    current selection has keys the remembered one did not have, the hook
    returns exactly those keys; if it has none, the hook returns what it
    returned before the change, which is the empty set only when no earlier
    highlight is still showing. From {a} to {a, b} the hook returns {b}. *)
Theorem C6_reveal_event (stats : list string) (es : list Event) (changed : list string) :
  useRevealedStats stats (es ++ [StatsChanged changed])
  = (if decide (list_to_set changed ∖ list_to_set (selectionAfter stats es)
                = (∅ : gset string))
     then useRevealedStats stats es
     else list_to_set changed ∖ list_to_set (selectionAfter stats es))
  ∧ useRevealedStats ["a"] [StatsChanged ["a"; "b"]] = {["b"]}.
Proof.
  split; [|by vm_compute].
  unfold useRevealedStats. rewrite run_snoc. simpl.
  destruct (statsCleanup_refs (run (mount stats) es)) as (Hn & Hp & Hm).
  unfold statsEffect. rewrite Hm, run_isMounted. simpl.
  rewrite Hp, run_previousStatsRef.
  assert (list_to_set (newStats (list_to_set (selectionAfter stats es)) changed)
          = (list_to_set changed ∖ list_to_set (selectionAfter stats es) : gset string))
    as Hd.
  { apply set_eq. intros key.
    by rewrite elem_of_difference, !elem_of_list_to_set, elem_of_newStats,
      elem_of_list_to_set. }
  rewrite <- Hd.
  destruct (newStats (list_to_set (selectionAfter stats es)) changed) as [|k fresh] eqn:E.
  - rewrite bool_decide_eq_false_2 by (simpl; lia). simpl.
    rewrite decide_True by done. exact Hn.
  - rewrite bool_decide_eq_true_2 by (simpl; lia). simpl.
    rewrite decide_False; [done|].
    intros Hempty. assert (k ∈ (∅ : gset string)) as Hk.
    { rewrite <- Hempty. apply elem_of_union_l. by apply elem_of_singleton. }
    by apply not_elem_of_empty in Hk.
Qed.

(** C10. The first render records the selection as seen and reveals
    nothing; a key the hook later returns as newly revealed was brought in
    by a change of the selection after the mount, and the selection in
    force before that change did not have it. *)
Theorem C10_mount_reveals_nothing (stats : list string) (es : list Event) (key : string) :
  key ∈ useRevealedStats stats es →
  newlyRevealed (mount stats) = ∅
  ∧ previousStatsRef (mount stats) = list_to_set stats
  ∧ useRevealedStats stats [] = ∅
  ∧ ∃ (before : list Event) (changed : list string) (later : list Event),
      es = before ++ StatsChanged changed :: later
      ∧ key ∈ changed
      ∧ key ∉ selectionAfter stats before.
Proof.
  intros Hkey.
  split; [by rewrite mount_eq|]. split; [by rewrite mount_eq|].
  split; [unfold useRevealedStats; simpl; by rewrite mount_eq|].
  unfold useRevealedStats in Hkey. revert Hkey.
  induction es as [|e es IH] using rev_ind.
  - rewrite mount_eq. simpl. intros Hin. by apply not_elem_of_empty in Hin.
  - rewrite run_snoc. intros Hin.
    apply step_newlyRevealed in Hin as [(changed & -> & Hc & Hp)|Hin].
    + exists es, changed, []. rewrite run_previousStatsRef, elem_of_list_to_set in Hp. done.
    + destruct (IH Hin) as (before & changed & later & -> & ? & ?).
      exists before, changed, (later ++ [e]). by rewrite <- app_assoc.
Qed.
End Reveal.

Lemma C10_mount_reveals_nothing_witness :
  "b" ∈ RevealedStats.useRevealedStats ["a"] [RevealedStats.StatsChanged ["a"; "b"]]
  ∧ (RevealedStats.newlyRevealed (RevealedStats.mount ["a"]) = ∅
     ∧ RevealedStats.previousStatsRef (RevealedStats.mount ["a"]) = list_to_set ["a"]
     ∧ RevealedStats.useRevealedStats ["a"] [] = ∅
     ∧ ∃ (before : list RevealedStats.Event) (changed : list string)
         (later : list RevealedStats.Event),
         [RevealedStats.StatsChanged ["a"; "b"]]
         = before ++ RevealedStats.StatsChanged changed :: later
         ∧ "b" ∈ changed
         ∧ "b" ∉ selectionAfter ["a"] before).
Proof.
  assert ("b" ∈ RevealedStats.useRevealedStats ["a"] [RevealedStats.StatsChanged ["a"; "b"]])
    as Hin by (by vm_compute).
  split; [exact Hin|].
  exact (C10_mount_reveals_nothing ["a"] [RevealedStats.StatsChanged ["a"; "b"]] "b" Hin).
Defined.

(** With {a, b} both as the previous and as the current selection the
    difference is empty, yet the hook returns {b}: the highlight of the
    earlier change is still showing, and as the change has cancelled its
    timer, the expiry that would have cleared it never comes. The same
    happens when "b" is hidden again. *)
Lemma C6_counterexample :
  selectionAfter ["a"] [RevealedStats.StatsChanged ["a"; "b"]] = ["a"; "b"]
  ∧ (list_to_set ["a"; "b"] ∖ list_to_set ["a"; "b"] : gset string) = ∅
  ∧ RevealedStats.useRevealedStats ["a"]
      [RevealedStats.StatsChanged ["a"; "b"]; RevealedStats.StatsChanged ["a"; "b"]]
    = {["b"]}
  ∧ RevealedStats.useRevealedStats ["a"]
      [RevealedStats.StatsChanged ["a"; "b"]; RevealedStats.StatsChanged ["a"; "b"];
       RevealedStats.TimerExpired]
    = {["b"]}
  ∧ RevealedStats.useRevealedStats ["a"]
      [RevealedStats.StatsChanged ["a"; "b"]; RevealedStats.StatsChanged ["a"]]
    = {["b"]}
  ∧ ({["b"]} : gset string) ≠ ∅.
Proof.
  split; [reflexivity|]. do 4 (split; [by vm_compute|]).
  intros Hempty. assert ("b" ∈ (∅ : gset string)) as Hb.
  { rewrite <- Hempty. by apply elem_of_singleton. }
  by apply not_elem_of_empty in Hb.
Qed.

(** ** Player search *)
Section Search.
Import PlayerSearch.
Variable provider : string → Answer.

(** C9. A query shorter than two characters reaches the provider neither
    through [searchPlayers], which empties the result list, nor through
    [handleSearch]. *)
Theorem C9_short_query_no_call (query : string) (st : State) :
  (String.length query < 2)%nat →
  (searchPlayers provider query st).2 = []
  ∧ players (searchPlayers provider query st).1 = []
  ∧ (handleSearch provider query st).2 = [].
Proof.
  intros Hlen. unfold handleSearch, searchPlayers.
  rewrite bool_decide_eq_true_2 by done.
  rewrite bool_decide_eq_false_2 by lia. done.
Qed.

(** On a short query [handleSearch] closes the result list and leaves its
    content as it was. *)
Lemma handleSearch_short (value : string) (st : State) :
  (String.length value < 2)%nat →
  (handleSearch provider value st).1 = mkState false value (players st) (loading st).
Proof.
  intros Hlen. unfold handleSearch. by rewrite bool_decide_eq_false_2 by lia.
Qed.

(** A query of two characters or more is sent to the provider once. *)
Lemma handleSearch_long (value : string) (st : State) :
  (2 ≤ String.length value)%nat →
  (handleSearch provider value st).2 = [PeopleSearch value].
Proof.
  intros Hlen. unfold handleSearch, searchPlayers.
  rewrite bool_decide_eq_true_2 by done.
  rewrite bool_decide_eq_false_2 by lia. simpl. by destruct (provider value).
Qed.
End Search.

Lemma C9_short_query_no_call_witness :
  (String.length "a" < 2)%nat
  ∧ ((PlayerSearch.searchPlayers Samples.someProvider "a" Samples.someSearch).2 = []
     ∧ PlayerSearch.players
         (PlayerSearch.searchPlayers Samples.someProvider "a" Samples.someSearch).1 = []
     ∧ (PlayerSearch.handleSearch Samples.someProvider "a" Samples.someSearch).2 = []).
Proof.
  assert (String.length "a" < 2)%nat as Hlen by (simpl; lia).
  split; [exact Hlen|].
  exact (C9_short_query_no_call Samples.someProvider "a" Samples.someSearch Hlen).
Defined.

(** ** The guesses route *)
Section Guesses.
Import GuessesRoute.
Context {Store : Type} `{!Supabase Store}.


Context `{!RequiredColumns Store}.

End Guesses.


(** A complete guess is stored by the provider that refuses incomplete rows,
    and answered with 201. *)
Example complete_guess_created :
  GuessesRoute.handler completeGuess (GuessesRoute.mkStrict [])
  = (GuessesRoute.mkStrict [GuessesRoute.body completeGuess],
     [GuessesRoute.Insert [GuessesRoute.body completeGuess]],
     GuessesRoute.mkResponse 201 [] (GuessesRoute.JsonData None)).
Proof. reflexivity. Qed.

(** With a provider that refuses incomplete rows the same request is still
    sent to it, and it is the provider's error that comes back. *)
Example strict_provider_rejects :
  GuessesRoute.handler guessWithoutGame (GuessesRoute.mkStrict [])
  = (GuessesRoute.mkStrict [],
     [GuessesRoute.Insert [GuessesRoute.body guessWithoutGame]],
     GuessesRoute.mkResponse 400 []
       (GuessesRoute.JsonError "null value violates not-null constraint")).
Proof. reflexivity. Qed.

(** ** The earlier revision

    Where [src/components/PlayerStats.tsx] differs from the revision the
    properties above are about. *)

(** Toggling "team" moves "team" alone. *)
Example earlier_toggle_team :
  afterCall Samples.teamRevealed
    (PlayerStatsEarlier.toggleAttribute Samples.teamRevealed "team" info)
  = mkSelection ["teamDetails"] ["age"; "team"].
Proof. by vm_compute. Qed.

(** Every namespace starts selected, unmapped keys included. *)
Example earlier_initialization :
  PlayerStatsEarlier.loadPlayerData true initialStatsConfig Samples.someData
  = [mkStatsChange info ["age"; "team"; "teamDetails"] [];
     mkStatsChange hitting ["avg"; "hr"; "playerId"] [];
     mkStatsChange pitching ["wins"; "era"] []].
Proof. by vm_compute. Qed.

(** A bulk toggle that requests "team" leaves "teamDetails" deselected. *)
Example earlier_toggle_all :
  afterCall Samples.teamRevealed
    (PlayerStatsEarlier.handleToggleAll Samples.loadedLocal info ["team"])
  = mkSelection ["team"] ["age"; "teamDetails"].
Proof. by vm_compute. Qed.

(** The guard looks at the selected list alone: a namespace whose keys are
    all deselected is initialized again. *)
Example earlier_reinitialization :
  PlayerStatsEarlier.loadPlayerData true
    (mkStatsConfig (mkSelection [] ["age"; "team"; "teamDetails"])
       (mkSelection ["avg"] ["hr"]) (mkSelection ["wins"; "era"] []))
    Samples.someData
  = [mkStatsChange info ["age"; "team"; "teamDetails"] []].
Proof. by vm_compute. Qed.

(** * Further properties *)

(** ** Single toggles *)
Section ToggleFacts.
Import PlayerStats.

Lemma toggleAttribute_flips (props : StatsConfig) (attribute : string) (type : StatType) :
  (attribute ∈ selected (afterCall props (toggleAttribute props attribute type))
   ↔ attribute ∉ selected (selection_of props type))
  ∧ (attribute ∈ deselected (afterCall props (toggleAttribute props attribute type))
     ↔ attribute ∈ selected (selection_of props type)).
Proof.
  rewrite afterCall_eq. simpl. unfold toggleAttribute.
  destruct (includes _ attribute) eqn:Hin; case_decide as Hteam; simpl;
    try (destruct (includes (push _ _) "teamDetails") eqn:Htd; simpl);
    subst; arrays.
Qed.

(** X1. A toggle moves its key to the other side: afterwards the key is selected
    exactly when it was not, and deselected exactly when it was selected. *)
Theorem toggle_flips_key (props : StatsConfig) (attribute : string) (type : StatType) :
  (attribute ∈ selected (afterCall props (toggleAttribute props attribute type))
   ↔ attribute ∉ selected (selection_of props type))
  ∧ (attribute ∈ deselected (afterCall props (toggleAttribute props attribute type))
     ↔ attribute ∈ selected (selection_of props type)).
Proof. apply toggleAttribute_flips. Qed.

(** X2. Which keys a toggle leaves in the two lists taken together: those that
    were there, the toggled key, and "teamDetails" when the key is "team".
    A key that was in neither list is thereby added, as selected. *)
Theorem toggle_keys (props : StatsConfig) (attribute key : string) (type : StatType) :
  (key ∈ selected (afterCall props (toggleAttribute props attribute type))
   ∨ key ∈ deselected (afterCall props (toggleAttribute props attribute type)))
  ↔ (key ∈ selected (selection_of props type) ∨ key ∈ deselected (selection_of props type)
     ∨ key = attribute ∨ (attribute = "team" ∧ key = "teamDetails")).
Proof.
  rewrite afterCall_eq. simpl. unfold toggleAttribute.
  destruct (decide (key = attribute)) as [Hk|Hk];
    destruct (decide (key = "teamDetails")) as [Hd|Hd];
    destruct (includes _ attribute) eqn:Hin; case_decide as Hteam; simpl;
    try (destruct (includes (push _ _) "teamDetails") eqn:Htd; simpl);
    arrays.
Qed.
End ToggleFacts.

Lemma NoDup_without (x : string) (arr : list string) : NoDup arr → NoDup (without x arr).
Proof. apply NoDup_filter. Qed.

Lemma NoDup_push (arr : list string) (x : string) : NoDup arr → x ∉ arr → NoDup (push arr x).
Proof.
  intros Hnd Hx. unfold push. apply NoDup_app. split; [done|]. split.
  - intros y Hy Hy'. apply list_elem_of_singleton in Hy'. by subst.
  - apply NoDup_singleton.
Qed.

Section ToggleInvariant.
Import PlayerStats.

(** X4. A toggle keeps a selection well formed: from lists without repetition
    that share no key it produces lists without repetition that share no
    key. *)
Theorem toggle_wellFormed (props : StatsConfig) (attribute : string) (type : StatType) :
  wellFormed (selection_of props type) →
  wellFormed (afterCall props (toggleAttribute props attribute type)).
Proof.
  intros (Hs & Hd & Hdis). rewrite afterCall_eq. unfold wellFormed, disjointSides. simpl.
  pose proof (Hdis attribute) as Ha. pose proof (Hdis "teamDetails") as Ht.
  unfold toggleAttribute.
  destruct (includes _ attribute) eqn:Hin; case_decide as Hteam; simpl;
    try (destruct (includes (push _ _) "teamDetails") eqn:Htd; simpl);
    (split; [|split]);
    try (intros key; specialize (Hdis key); arrays);
    repeat first [ apply NoDup_without | apply NoDup_push ]; try done;
    arrays.
Qed.

Lemma toggleAttribute_frame (props : StatsConfig) (attribute key : string)
    (type : StatType) :
  key ≠ attribute →
  (attribute = "team" → key ≠ "teamDetails") →
  (key ∈ selected (afterCall props (toggleAttribute props attribute type))
   ↔ key ∈ selected (selection_of props type))
  ∧ (key ∈ deselected (afterCall props (toggleAttribute props attribute type))
     ↔ key ∈ deselected (selection_of props type)).
Proof.
  intros Hk Hd. rewrite afterCall_eq. simpl. unfold toggleAttribute.
  destruct (includes _ attribute) eqn:Hin; case_decide as Hteam; simpl;
    try (destruct (includes (push _ _) "teamDetails") eqn:Htd; simpl);
    try specialize (Hd Hteam); arrays.
Qed.

(** X3. A toggle leaves every other key where it was; "teamDetails" is the one
    exception, when the key toggled is "team". *)
Theorem toggle_frame (props : StatsConfig) (attribute key : string) (type : StatType) :
  key ≠ attribute →
  (attribute = "team" → key ≠ "teamDetails") →
  (key ∈ selected (afterCall props (toggleAttribute props attribute type))
   ↔ key ∈ selected (selection_of props type))
  ∧ (key ∈ deselected (afterCall props (toggleAttribute props attribute type))
     ↔ key ∈ deselected (selection_of props type)).
Proof. apply toggleAttribute_frame. Qed.

(** X5. Toggling a key twice brings every key back to its side, provided the
    key was in exactly one of the two lists and, when the key is "team",
    "teamDetails" was on its side. *)
Theorem toggle_twice (props : StatsConfig) (attribute : string) (type : StatType) :
  (attribute ∈ selected (selection_of props type)
   ↔ attribute ∉ deselected (selection_of props type)) →
  (attribute = "team" → sameSide (selection_of props type)) →
  let once := handleStatsChange props (toggleAttribute props attribute type) in
  sameKeys (afterCall once (toggleAttribute once attribute type)) (selection_of props type).
Proof.
  intros Hone Hteam once.
  assert (selection_of once type = afterCall props (toggleAttribute props attribute type))
    as Honce.
  { subst once. unfold afterCall. by rewrite toggleAttribute_type. }
  pose proof (toggleAttribute_flips props attribute type) as [Fs1 Fd1].
  pose proof (toggleAttribute_flips once attribute type) as [Fs2 Fd2].
  rewrite Honce in Fs2, Fd2.
  assert (∀ key, key ≠ attribute → (attribute = "team" → key ≠ "teamDetails") →
            (key ∈ selected (afterCall once (toggleAttribute once attribute type))
             ↔ key ∈ selected (selection_of props type))
            ∧ (key ∈ deselected (afterCall once (toggleAttribute once attribute type))
               ↔ key ∈ deselected (selection_of props type))) as Hframe.
  { intros key Hk Hd.
    pose proof (toggleAttribute_frame props attribute key type Hk Hd) as [G1 G2].
    pose proof (toggleAttribute_frame once attribute key type Hk Hd) as [G3 G4].
    rewrite Honce in G3, G4. tauto. }
  assert ((attribute ∈ selected (afterCall once (toggleAttribute once attribute type))
           ↔ attribute ∈ selected (selection_of props type))
          ∧ (attribute ∈ deselected (afterCall once (toggleAttribute once attribute type))
             ↔ attribute ∈ deselected (selection_of props type))) as [Hks Hkd].
  { destruct (decide (attribute ∈ selected (selection_of props type)));
      destruct (decide (attribute ∈ deselected (selection_of props type))); tauto. }
  split; intros key.
  - destruct (decide (key = attribute)) as [->|Hk]; [done|].
    destruct (decide (attribute = "team" ∧ key = "teamDetails")) as [[-> ->]|Hn].
    + destruct (Hteam eq_refl) as [Hsel _].
      pose proof (toggleAttribute_team once type) as Hpair. simpl in Hpair.
      rewrite !afterCall_eq in Hks, Hkd |- *. simpl in *. tauto.
    + apply Hframe; [done|tauto].
  - destruct (decide (key = attribute)) as [->|Hk]; [done|].
    destruct (decide (attribute = "team" ∧ key = "teamDetails")) as [[-> ->]|Hn].
    + destruct (Hteam eq_refl) as [_ Hdesel].
      pose proof (toggleAttribute_team once type) as Hpair. simpl in Hpair.
      rewrite !afterCall_eq in Hks, Hkd |- *. simpl in *. tauto.
    + apply Hframe; [done|tauto].
Qed.
End ToggleInvariant.

Lemma toggle_wellFormed_witness :
  wellFormed (selection_of Samples.teamRevealed info)
  ∧ wellFormed (afterCall Samples.teamRevealed
                  (PlayerStats.toggleAttribute Samples.teamRevealed "team" info)).
Proof.
  assert (wellFormed (selection_of Samples.teamRevealed info)) as Hw.
  { unfold wellFormed, disjointSides. simpl. split; [|split].
    - repeat (apply NoDup_cons_2; [arrays|]). apply NoDup_nil_2.
    - repeat (apply NoDup_cons_2; [arrays|]). apply NoDup_nil_2.
    - intros key. arrays. }
  split; [exact Hw|].
  exact (toggle_wellFormed Samples.teamRevealed "team" info Hw).
Defined.

Lemma toggle_frame_witness :
  "age" ≠ "team"
  ∧ ("team" = "team" → "age" ≠ "teamDetails")
  ∧ ((("age" ∈ selected (afterCall Samples.teamRevealed
                 (PlayerStats.toggleAttribute Samples.teamRevealed "team" info)))
      ↔ "age" ∈ selected (selection_of Samples.teamRevealed info))
     ∧ (("age" ∈ deselected (afterCall Samples.teamRevealed
                   (PlayerStats.toggleAttribute Samples.teamRevealed "team" info)))
        ↔ "age" ∈ deselected (selection_of Samples.teamRevealed info))).
Proof.
  assert ("age" ≠ "team") as H1 by discriminate.
  assert ("team" = "team" → "age" ≠ "teamDetails") as H2 by (intros _; discriminate).
  split; [exact H1|]. split; [exact H2|].
  exact (toggle_frame Samples.teamRevealed "team" "age" info H1 H2).
Defined.

Lemma toggle_twice_witness :
  ("team" ∈ selected (selection_of Samples.teamRevealed info)
   ↔ "team" ∉ deselected (selection_of Samples.teamRevealed info))
  ∧ ("team" = "team" → sameSide (selection_of Samples.teamRevealed info))
  ∧ (let once :=
       handleStatsChange Samples.teamRevealed
         (PlayerStats.toggleAttribute Samples.teamRevealed "team" info) in
     sameKeys (afterCall once (PlayerStats.toggleAttribute once "team" info))
       (selection_of Samples.teamRevealed info)).
Proof.
  assert ("team" ∈ selected (selection_of Samples.teamRevealed info)
          ↔ "team" ∉ deselected (selection_of Samples.teamRevealed info)) as H1.
  { simpl. arrays. }
  assert ("team" = "team" → sameSide (selection_of Samples.teamRevealed info)) as H2.
  { intros _. unfold sameSide. simpl. split; arrays. }
  split; [exact H1|]. split; [exact H2|].
  exact (toggle_twice Samples.teamRevealed "team" info H1 H2).
Defined.

(** ** Bulk toggles, again *)
Section ToggleAllFacts.
Import PlayerStats.
Variables playerInfoMappings hittingStatMappings pitchingStatMappings
  : gmap string StatMapping.

Local Abbreviation handleToggleAll :=
  (handleToggleAll playerInfoMappings hittingStatMappings pitchingStatMappings).
Local Abbreviation allKeysOf :=
  (allKeysOf playerInfoMappings hittingStatMappings pitchingStatMappings).

Lemma handleToggleAll_deselected (st : Local) (type : StatType)
    (selectedKeys : list string) (key : string) :
  key ∈ sc_deselected (handleToggleAll st type selectedKeys)
  ↔ key ∈ allKeysOf st type ∧ (key ∉ selectedKeys)
    ∧ ¬ (key = "teamDetails" ∧ "team" ∈ selectedKeys).
Proof.
  unfold PlayerStats.handleToggleAll. simpl.
  destruct selectedKeys as [|k ks].
  - rewrite bool_decide_eq_true_2 by done. rewrite !elem_of_nil. tauto.
  - rewrite bool_decide_eq_false_2 by done.
    destruct (includes (k :: ks) "team") eqn:Hteam.
    + apply includes_true in Hteam.
      rewrite elem_of_without, list_elem_of_filter, negb_True.
      unfold includes. rewrite bool_decide_spec. tauto.
    + apply includes_false in Hteam.
      rewrite list_elem_of_filter, negb_True.
      unfold includes. rewrite bool_decide_spec. tauto.
Qed.

Lemma handleToggleAll_sublist (st : Local) (type : StatType) (selectedKeys : list string) :
  sublist (sc_deselected (handleToggleAll st type selectedKeys)) (allKeysOf st type).
Proof.
  unfold PlayerStats.handleToggleAll. simpl.
  case_bool_decide; [done|].
  destruct (includes selectedKeys "team").
  - unfold without. etrans; apply sublist_filter.
  - apply sublist_filter.
Qed.

(** X6. What a bulk toggle deselects: the keys it ranges over that were not
    requested, in their order, "teamDetails" left out when "team" is
    requested. No key it deselects is among the selected ones. *)
Theorem toggleAll_partition (props : StatsConfig) (st : Local) (type : StatType)
    (selectedKeys : list string) :
  (∀ key, key ∈ deselected (afterCall props (handleToggleAll st type selectedKeys))
          ↔ key ∈ allKeysOf st type ∧ (key ∉ selectedKeys)
            ∧ ¬ (key = "teamDetails" ∧ "team" ∈ selectedKeys))
  ∧ sublist (deselected (afterCall props (handleToggleAll st type selectedKeys)))
      (allKeysOf st type)
  ∧ disjointSides (afterCall props (handleToggleAll st type selectedKeys)).
Proof.
  rewrite afterCall_eq. unfold disjointSides. simpl.
  split; [|split].
  - intros key. apply handleToggleAll_deselected.
  - apply handleToggleAll_sublist.
  - intros key [Hs Hd]. apply handleToggleAll_deselected in Hd. tauto.
Qed.

(** X7. Requesting every key a bulk toggle ranges over leaves nothing
    deselected. *)
Theorem toggleAll_everything (props : StatsConfig) (st : Local) (type : StatType)
    (selectedKeys : list string) :
  (∀ key, key ∈ allKeysOf st type → key ∈ selectedKeys) →
  deselected (afterCall props (handleToggleAll st type selectedKeys)) = [].
Proof.
  intros Hall. rewrite afterCall_eq. simpl.
  apply elem_of_nil_inv. intros key Hin.
  apply handleToggleAll_deselected in Hin. destruct Hin as (Hk & Hn & _).
  by apply Hn, Hall.
Qed.
End ToggleAllFacts.

Lemma toggleAll_everything_witness :
  (∀ key,
     key ∈ PlayerStats.allKeysOf Samples.infoMappings Samples.hittingMappings
             Samples.pitchingMappings Samples.loadedLocal hitting →
     key ∈ ["hr"; "avg"])
  ∧ deselected (afterCall Samples.teamRevealed
      (PlayerStats.handleToggleAll Samples.infoMappings Samples.hittingMappings
         Samples.pitchingMappings Samples.loadedLocal hitting ["hr"; "avg"])) = [].
Proof.
  assert (∀ key,
            key ∈ PlayerStats.allKeysOf Samples.infoMappings Samples.hittingMappings
                    Samples.pitchingMappings Samples.loadedLocal hitting →
            key ∈ ["hr"; "avg"]) as Hall.
  { intros key.
    replace (PlayerStats.allKeysOf _ _ _ _ _) with ["hr"; "avg"] by (by vm_compute).
    done. }
  split; [exact Hall|].
  exact (toggleAll_everything Samples.infoMappings Samples.hittingMappings
           Samples.pitchingMappings Samples.teamRevealed Samples.loadedLocal hitting
           ["hr"; "avg"] Hall).
Defined.

(** ** Loading, again *)
Section LoadFacts.
Import PlayerStats.
Variables playerInfoMappings hittingStatMappings pitchingStatMappings
  : gmap string StatMapping.
Variable fetchPlayerData : Z → Fetched.

Local Abbreviation loadPlayerData :=
  (loadPlayerData hittingStatMappings pitchingStatMappings fetchPlayerData).
Local Abbreviation initialize := (initialize hittingStatMappings pitchingStatMappings).

(** X9. A load that ends with an error message has changed no selection and has
    kept the records shown before; the loading flag is down. *)
Theorem load_failure (playerId : Z) (configurable : bool) (props : StatsConfig)
    (st : Local) :
  error (loadPlayerData playerId configurable props st).1 ≠ None →
  (loadPlayerData playerId configurable props st).2 = []
  ∧ playerInfo (loadPlayerData playerId configurable props st).1 = playerInfo st
  ∧ hittingStats (loadPlayerData playerId configurable props st).1 = hittingStats st
  ∧ pitchingStats (loadPlayerData playerId configurable props st).1 = pitchingStats st
  ∧ isLoading (loadPlayerData playerId configurable props st).1 = false.
Proof.
  unfold PlayerStats.loadPlayerData.
  case_decide; [done|].
  destruct (fetchPlayerData playerId) as [message| |data]; [done..|].
  destruct (d_playerInfo data); [|done]. simpl. done.
Qed.

(** X10. A selection is changed by a load only in a configurable component, for
    a player identifier that is not zero, when the data has arrived with a
    biographical record; the load then ends without an error. *)
Theorem load_changes_only_when (playerId : Z) (configurable : bool) (props : StatsConfig)
    (st : Local) :
  (loadPlayerData playerId configurable props st).2 ≠ [] →
  configurable = true
  ∧ playerId ≠ 0
  ∧ (∃ data pinfo, fetchPlayerData playerId = Resolved data
                   ∧ d_playerInfo data = Some pinfo
                   ∧ playerInfo (loadPlayerData playerId configurable props st).1
                     = Some pinfo)
  ∧ error (loadPlayerData playerId configurable props st).1 = None.
Proof.
  unfold PlayerStats.loadPlayerData.
  case_decide; [done|].
  destruct (fetchPlayerData playerId) as [message| |data] eqn:Hfetch; [done..|].
  destruct (d_playerInfo data) as [pinfo|] eqn:Hinfo; [|done]. simpl.
  destruct configurable; [|done]. intros _.
  split; [done|]. split; [done|]. split; [|done].
  by exists data, pinfo.
Qed.

(** Every call of the initialization block leaves one of the two lists
    empty, so whatever the selections were, none shares a key between its
    lists for the namespaces the block has set. *)
Lemma initialize_disjoint (props cur : StatsConfig) (data : PlayerData) (pinfo : JsObject) :
  (∀ type, disjointSides (selection_of cur type)) →
  ∀ type, disjointSides (selection_of (applyStatsChanges cur (initialize props data pinfo)) type).
Proof.
  intros Hcur type. destruct type; cbn [selection_of].
  - rewrite initialize_info. intros key [H _]. by apply elem_of_nil in H.
  - rewrite initialize_hitting.
    destruct (d_hittingStats data); [apply (Hcur hitting)|].
    destruct (_ && _); [|apply (Hcur hitting)].
    intros key [_ H]. by apply elem_of_nil in H.
  - rewrite initialize_pitching.
    destruct (d_pitchingStats data); [apply (Hcur pitching)|].
    destruct (_ && _); [|apply (Hcur pitching)].
    intros key [_ H]. by apply elem_of_nil in H.
Qed.

(** X12. After the first load the selected keys of a statistics namespace are,
    up to order, the keys its bulk toggle ranges over, so that requesting
    them all again deselects nothing. *)
Theorem initial_selection_is_all_keys (playerId : Z) (props cur : StatsConfig) (st : Local)
    (data : PlayerData) (pinfo : JsObject) (type : StatType) (first : JsObject)
    (rest : list JsObject) :
  playerId ≠ 0 → fetchPlayerData playerId = Resolved data → d_playerInfo data = Some pinfo →
  statsOf data type = first :: rest →
  selection_of props type = mkSelection [] [] →
  let loaded := loadPlayerData playerId true props st in
  let after := applyStatsChanges cur loaded.2 in
  selected (selection_of after type)
  ≡ₚ allKeysOf playerInfoMappings hittingStatMappings pitchingStatMappings loaded.1 type
  ∧ deselected
      (afterCall after
         (handleToggleAll playerInfoMappings hittingStatMappings pitchingStatMappings
            loaded.1 type (selected (selection_of after type)))) = [].
Proof.
  intros Hid Hfetch Hinfo Hfirst Hempty loaded after.
  assert (selected (selection_of after type)
          ≡ₚ allKeysOf playerInfoMappings hittingStatMappings pitchingStatMappings
               loaded.1 type) as Hperm.
  { subst after loaded. rewrite (loadPlayerData_resolved _ _ _ _ _ _ _ data pinfo) by done.
    cbv beta iota delta [fst snd].
    assert (∀ (m : gmap string StatMapping) (l : list string),
              filter (λ key, key_in key m) l = filter (λ key, is_Some (m !! key)) l) as Hf.
    { intros m l. apply list_filter_iff. intros k. unfold key_in. apply bool_decide_spec. }
    destruct type; [done| |]; cbn [selection_of statsOf PlayerStats.allKeysOf
                                     hittingStats pitchingStats] in *.
    - rewrite initialize_hitting, Hfirst, Hempty. simpl.
      by rewrite Hf, getSortedKeys_Permutation.
    - rewrite initialize_pitching, Hfirst, Hempty. simpl.
      by rewrite Hf, getSortedKeys_Permutation. }
  split; [exact Hperm|].
  rewrite afterCall_eq. simpl. apply elem_of_nil_inv. intros key Hin.
  apply handleToggleAll_deselected in Hin. destruct Hin as (Hk & Hn & _).
  apply Hn. by rewrite Hperm.
Qed.
End LoadFacts.

Lemma load_failure_witness :
  error (PlayerStats.loadPlayerData Samples.hittingMappings Samples.pitchingMappings
           Samples.someFetch 0 true Samples.teamRevealed Samples.loadedLocal).1 ≠ None
  ∧ ((PlayerStats.loadPlayerData Samples.hittingMappings Samples.pitchingMappings
        Samples.someFetch 0 true Samples.teamRevealed Samples.loadedLocal).2 = []
     ∧ playerInfo (PlayerStats.loadPlayerData Samples.hittingMappings
                     Samples.pitchingMappings Samples.someFetch 0 true Samples.teamRevealed
                     Samples.loadedLocal).1 = playerInfo Samples.loadedLocal
     ∧ hittingStats (PlayerStats.loadPlayerData Samples.hittingMappings
                       Samples.pitchingMappings Samples.someFetch 0 true
                       Samples.teamRevealed Samples.loadedLocal).1
       = hittingStats Samples.loadedLocal
     ∧ pitchingStats (PlayerStats.loadPlayerData Samples.hittingMappings
                        Samples.pitchingMappings Samples.someFetch 0 true
                        Samples.teamRevealed Samples.loadedLocal).1
       = pitchingStats Samples.loadedLocal
     ∧ isLoading (PlayerStats.loadPlayerData Samples.hittingMappings
                    Samples.pitchingMappings Samples.someFetch 0 true Samples.teamRevealed
                    Samples.loadedLocal).1 = false).
Proof.
  assert (error (PlayerStats.loadPlayerData Samples.hittingMappings Samples.pitchingMappings
                   Samples.someFetch 0 true Samples.teamRevealed Samples.loadedLocal).1
          ≠ None) as Herr by (simpl; discriminate).
  split; [exact Herr|].
  exact (load_failure Samples.hittingMappings Samples.pitchingMappings Samples.someFetch 0
           true Samples.teamRevealed Samples.loadedLocal Herr).
Defined.

Lemma load_changes_only_when_witness :
  (PlayerStats.loadPlayerData Samples.hittingMappings Samples.pitchingMappings
     Samples.someFetch 7 true initialStatsConfig initialLocal).2 ≠ []
  ∧ (true = true
     ∧ 7 ≠ 0
     ∧ (∃ data pinfo, Samples.someFetch 7 = Resolved data
                      ∧ d_playerInfo data = Some pinfo
                      ∧ playerInfo (PlayerStats.loadPlayerData Samples.hittingMappings
                                      Samples.pitchingMappings Samples.someFetch 7 true
                                      initialStatsConfig initialLocal).1 = Some pinfo)
     ∧ error (PlayerStats.loadPlayerData Samples.hittingMappings Samples.pitchingMappings
                Samples.someFetch 7 true initialStatsConfig initialLocal).1 = None).
Proof.
  assert ((PlayerStats.loadPlayerData Samples.hittingMappings Samples.pitchingMappings
             Samples.someFetch 7 true initialStatsConfig initialLocal).2 ≠ []) as Hcalls
    by (vm_compute; discriminate).
  split; [exact Hcalls|].
  exact (load_changes_only_when Samples.hittingMappings Samples.pitchingMappings
           Samples.someFetch 7 true initialStatsConfig initialLocal Hcalls).
Defined.

Lemma initial_selection_is_all_keys_witness :
  7 ≠ 0
  ∧ Samples.someFetch 7 = Resolved Samples.someData
  ∧ d_playerInfo Samples.someData = Some Samples.somePlayerInfo
  ∧ statsOf Samples.someData pitching = [Samples.somePitchingRecord]
  ∧ selection_of initialStatsConfig pitching = mkSelection [] []
  ∧ (let loaded :=
       PlayerStats.loadPlayerData Samples.hittingMappings Samples.pitchingMappings
         Samples.someFetch 7 true initialStatsConfig initialLocal in
     let after := applyStatsChanges initialStatsConfig loaded.2 in
     selected (selection_of after pitching)
     ≡ₚ PlayerStats.allKeysOf Samples.infoMappings Samples.hittingMappings
          Samples.pitchingMappings loaded.1 pitching
     ∧ deselected
         (afterCall after
            (PlayerStats.handleToggleAll Samples.infoMappings Samples.hittingMappings
               Samples.pitchingMappings loaded.1 pitching
               (selected (selection_of after pitching)))) = []).
Proof.
  split; [lia|]. split; [reflexivity|]. split; [reflexivity|].
  split; [reflexivity|]. split; [reflexivity|].
  apply (initial_selection_is_all_keys Samples.infoMappings Samples.hittingMappings
           Samples.pitchingMappings Samples.someFetch 7 initialStatsConfig
           initialStatsConfig initialLocal Samples.someData Samples.somePlayerInfo pitching
           Samples.somePitchingRecord []);
    [lia | reflexivity | reflexivity | reflexivity | reflexivity].
Defined.

(** ** A creator's session *)
Section SessionFacts.
Import PlayerStats.
Variables playerInfoMappings hittingStatMappings pitchingStatMappings
  : gmap string StatMapping.
Variable fetchPlayerData : Z → Fetched.

Local Abbreviation loadPlayerData :=
  (loadPlayerData hittingStatMappings pitchingStatMappings fetchPlayerData).
Local Abbreviation step :=
  (Session.step playerInfoMappings hittingStatMappings pitchingStatMappings fetchPlayerData).
Local Abbreviation run :=
  (Session.run playerInfoMappings hittingStatMappings pitchingStatMappings fetchPlayerData).

Lemma toggleAttribute_disjoint (props : StatsConfig) (attribute : string) (type : StatType) :
  disjointSides (selection_of props type) →
  disjointSides (afterCall props (toggleAttribute props attribute type)).
Proof.
  intros Hdis. rewrite afterCall_eq. unfold disjointSides. simpl.
  pose proof (Hdis attribute) as Ha. pose proof (Hdis "teamDetails") as Ht.
  unfold toggleAttribute.
  destruct (includes _ attribute) eqn:Hin; case_decide as Hteam; simpl;
    try (destruct (includes (push _ _) "teamDetails") eqn:Htd; simpl);
    intros key; specialize (Hdis key); arrays.
Qed.

(** The calls of a load, whatever its outcome. *)
Lemma loadPlayerData_calls (playerId : Z) (configurable : bool) (props : StatsConfig)
    (st : Local) :
  (loadPlayerData playerId configurable props st).2 = []
  ∨ ∃ data pinfo,
      (loadPlayerData playerId configurable props st).2
      = initialize hittingStatMappings pitchingStatMappings props data pinfo.
Proof.
  unfold PlayerStats.loadPlayerData.
  case_decide; [by left|].
  destruct (fetchPlayerData playerId) as [message| |data]; [by left..|].
  destruct (d_playerInfo data) as [pinfo|]; [|by left].
  destruct configurable; [|by left]. right. by exists data, pinfo.
Qed.

Lemma step_disjoint (s : Session.State) (a : Session.Action) :
  (∀ type, disjointSides (selection_of (Session.config s) type)) →
  ∀ type, disjointSides (selection_of (Session.config (step s a)) type).
Proof.
  intros Hs type. destruct a as [playerId|key t|t selectedKeys]; simpl.
  - destruct (loadPlayerData playerId true (Session.config s) (Session.component s))
      as [st calls] eqn:Hload. simpl.
    destruct (loadPlayerData_calls playerId true (Session.config s) (Session.component s))
      as [Hc|(data & pinfo & Hc)]; rewrite Hload in Hc; simpl in Hc; subst calls.
    + apply Hs.
    + by apply initialize_disjoint.
  - unfold handleToggle. destruct (decide (type = t)) as [->|Hne].
    + pose proof (toggleAttribute_disjoint (Session.config s) key t (Hs t)) as Hd.
      unfold afterCall in Hd. by rewrite toggleAttribute_type in Hd.
    + rewrite selection_of_handleStatsChange_ne; [apply Hs|].
      by rewrite toggleAttribute_type.
  - destruct (decide (type = t)) as [->|Hne].
    + pose proof (afterCall_eq (Session.config s)
                    (handleToggleAll playerInfoMappings hittingStatMappings
                       pitchingStatMappings (Session.component s) t selectedKeys)) as He.
      unfold afterCall in He. simpl in He. rewrite He.
      intros key [Hsel Hd]. simpl in Hsel, Hd.
      apply handleToggleAll_deselected in Hd. tauto.
    + by rewrite selection_of_handleStatsChange_ne.
Qed.

(** X8. Whatever the creator does, in whatever order, after loads that succeed
    or fail, no key is ever both selected and deselected. *)
Theorem session_disjoint (actions : list Session.Action) (type : StatType) :
  disjointSides (selection_of (Session.config (run Session.initial actions)) type).
Proof.
  revert type. induction actions as [|a actions IH] using rev_ind.
  - intros type key [H _]. destruct type; by apply elem_of_nil in H.
  - unfold Session.run in *. rewrite foldl_snoc. by apply step_disjoint.
Qed.

(** X11. The guard of a load reads the selection captured when the load
    was started, not the one the page holds when the answer arrives. A load
    that captured a hitting or pitching selection that is not empty makes no
    call for that namespace: whatever the page holds for it by then is kept,
    for the same player or another one, and when the load fails. *)
Theorem load_keeps_stats_selection (playerId : Z) (configurable : bool)
    (props cur : StatsConfig) (st : Local) (type : StatType) :
  type ≠ info →
  selected (selection_of props type) ≠ [] ∨ deselected (selection_of props type) ≠ [] →
  selection_of (applyStatsChanges cur (loadPlayerData playerId configurable props st).2) type
  = selection_of cur type.
Proof.
  intros Htype Hne.
  destruct (loadPlayerData_calls playerId configurable props st)
    as [->|(data & pinfo & ->)]; [done|].
  destruct type; [done| |]; cbn [selection_of] in *.
  - rewrite initialize_hitting, guard_false by done. by destruct (d_hittingStats data).
  - rewrite initialize_pitching, guard_false by done. by destruct (d_pitchingStats data).
Qed.
End SessionFacts.

Lemma load_keeps_stats_selection_witness :
  hitting ≠ info
  ∧ (selected (selection_of Samples.teamRevealed hitting) ≠ []
     ∨ deselected (selection_of Samples.teamRevealed hitting) ≠ [])
  ∧ selection_of
      (applyStatsChanges pageWithHrShown
         (PlayerStats.loadPlayerData Samples.hittingMappings Samples.pitchingMappings
            Samples.someFetch 7 true Samples.teamRevealed Samples.loadedLocal).2) hitting
    = selection_of pageWithHrShown hitting.
Proof.
  assert (hitting ≠ info) as H1 by discriminate.
  assert (selected (selection_of Samples.teamRevealed hitting) ≠ []
          ∨ deselected (selection_of Samples.teamRevealed hitting) ≠ []) as H2
    by (left; discriminate).
  split; [exact H1|]. split; [exact H2|].
  exact (load_keeps_stats_selection Samples.hittingMappings Samples.pitchingMappings
           Samples.someFetch 7 true Samples.teamRevealed pageWithHrShown
           Samples.loadedLocal hitting H1 H2).
Defined.

(** A load that was started while the hitting selection was still empty is
    not held back by the guard: when its answer arrives after a selection
    has been made, it replaces that selection by one that shows every
    mapped key. *)
Example late_load_overwrites :
  cfg_hitting pageWithHrShown = mkSelection ["hr"] ["avg"]
  ∧ cfg_hitting
      (applyStatsChanges pageWithHrShown
         (PlayerStats.loadPlayerData Samples.hittingMappings Samples.pitchingMappings
            Samples.someFetch 7 true initialStatsConfig initialLocal).2)
    = mkSelection ["avg"; "hr"] [].
Proof. split; by vm_compute. Qed.

(** The sample session: team revealed with its details, one hitting column
    hidden, one pitching column kept. *)
Example session_evaluated :
  Session.config
    (Session.run Samples.infoMappings Samples.hittingMappings Samples.pitchingMappings
       Samples.someFetch Session.initial someSession)
  = mkStatsConfig (mkSelection ["team"; "teamDetails"] ["age"])
      (mkSelection ["avg"] ["hr"]) (mkSelection ["era"] ["wins"]).
Proof. by vm_compute. Qed.

(** ** Records *)

Lemma obj_get_set_eq (obj : JsObject) (key : string) (v : JsValue) :
  obj_get (obj_set key v obj) key = Some v.
Proof.
  induction obj as [|[k w] obj IH]; simpl.
  - by rewrite decide_True.
  - case_decide; simpl.
    + by rewrite decide_True.
    + by rewrite decide_False.
Qed.

Lemma obj_get_set_ne (obj : JsObject) (key key' : string) (v : JsValue) :
  key ≠ key' → obj_get (obj_set key v obj) key' = obj_get obj key'.
Proof.
  intros Hne. induction obj as [|[k w] obj IH]; simpl.
  - by rewrite decide_False.
  - case_decide; simpl.
    + subst. by rewrite !decide_False.
    + by case_decide.
Qed.

Lemma Object_keys_set (obj : JsObject) (key : string) (v : JsValue) :
  key ∈ Object_keys obj → Object_keys (obj_set key v obj) = Object_keys obj.
Proof.
  unfold Object_keys. induction obj as [|[k w] obj IH]; simpl.
  - intros H. by apply elem_of_nil in H.
  - intros H. case_decide; simpl; [done|].
    f_equal. apply IH. apply elem_of_cons in H as [?|?]; [congruence|done].
Qed.

Lemma obj_get_is_Some (obj : JsObject) (key : string) :
  is_Some (obj_get obj key) ↔ key ∈ Object_keys obj.
Proof.
  unfold Object_keys. induction obj as [|[k w] obj IH]; simpl.
  - rewrite elem_of_nil. split; [by intros [? ?]|done].
  - rewrite elem_of_cons. case_decide; [subst|].
    + split; [by left|by eexists].
    + rewrite IH. split; [by right|]. intros [?|?]; [congruence|done].
Qed.

Lemma obj_get_copy (source target : JsObject) (key key' : string) :
  obj_get (obj_copy source key target) key'
  = if decide (key = key' ∧ key ∈ Object_keys source) then obj_get source key
    else obj_get target key'.
Proof.
  unfold obj_copy. destruct (obj_get source key) as [v|] eqn:Hv.
  - assert (key ∈ Object_keys source) by (apply obj_get_is_Some; by eexists).
    destruct (decide (key = key')) as [->|Hne].
    + rewrite obj_get_set_eq, decide_True; done.
    + rewrite obj_get_set_ne by done. rewrite decide_False; [done|tauto].
  - rewrite decide_False; [done|]. intros [_ Hin].
    apply obj_get_is_Some in Hin as [? ?]. congruence.
Qed.

(** ** What is shown *)
Section Showing.
Import PlayerStats PlayerStatsView.

Lemma restricted_fold (stats : JsObject) (selectedKeys ks : list string)
    (acc : JsObject) (key : string) :
  obj_get
    (foldl (λ filteredStats k,
              let filteredStats :=
                if includes selectedKeys k then obj_copy stats k filteredStats
                else filteredStats in
              if bool_decide (k = "teamDetails") && includes selectedKeys "team"
              then obj_copy stats k filteredStats
              else filteredStats) acc ks) key
  = if decide (key ∈ ks ∧ kept selectedKeys key = true ∧ key ∈ Object_keys stats)
    then obj_get stats key else obj_get acc key.
Proof.
  revert acc. induction ks as [|k ks IH]; intros acc; cbn [foldl].
  - rewrite decide_False; [done|]. rewrite elem_of_nil. tauto.
  - rewrite IH. clear IH. cbv zeta.
    assert (obj_get
              (if bool_decide (k = "teamDetails") && includes selectedKeys "team"
               then obj_copy stats k
                      (if includes selectedKeys k then obj_copy stats k acc else acc)
               else if includes selectedKeys k then obj_copy stats k acc else acc) key
            = if decide (k = key ∧ kept selectedKeys key = true ∧ key ∈ Object_keys stats)
              then obj_get stats key else obj_get acc key) as ->.
    { destruct (decide (k = key)) as [->|Hne].
      - unfold kept.
        destruct (bool_decide (key = "teamDetails") && includes selectedKeys "team");
          destruct (includes selectedKeys key); simpl;
          rewrite ?obj_get_copy; repeat case_decide; try done;
          exfalso; intuition (try done; try congruence).
      - rewrite (decide_False (P := k = key ∧ _)) by tauto.
        destruct (bool_decide (k = "teamDetails") && includes selectedKeys "team");
          destruct (includes selectedKeys k);
          rewrite ?obj_get_copy, ?decide_False by tauto; done. }
    repeat case_decide; try done; exfalso;
      rewrite elem_of_cons in *; intuition (subst; eauto).
Qed.

Lemma obj_get_filterVisibleStats (configurable showAllStats : bool) (stats : JsObject)
    (selectedKeys : list string) (key : string) :
  obj_get (filterVisibleStats configurable showAllStats stats selectedKeys) key
  = if configurable || showAllStats || kept selectedKeys key then obj_get stats key
    else None.
Proof.
  unfold filterVisibleStats.
  destruct (configurable || showAllStats); [done|]. simpl.
  rewrite restricted_fold. simpl.
  destruct (kept selectedKeys key) eqn:Hk.
  - case_decide as H; [done|].
    destruct (obj_get stats key) as [v|] eqn:Hv; [|done].
    exfalso. apply H.
    assert (key ∈ Object_keys stats) by (apply obj_get_is_Some; by eexists). done.
  - rewrite decide_False; [done|]. intros (_ & ? & _). done.
Qed.

(** X15. The values behind the columns. For an author or a showcase the record
    is shown as it is; for a player, a value is kept exactly when its key is
    selected, or is "teamDetails" while "team" is selected, and every other
    key is absent from what is shown. *)
Theorem hidden_values_are_absent (configurable showAllStats : bool) (stats : JsObject)
    (selectedKeys : list string) (key : string) :
  obj_get (filterVisibleStats configurable showAllStats stats selectedKeys) key
  = if configurable || showAllStats || kept selectedKeys key then obj_get stats key
    else None.
Proof. apply obj_get_filterVisibleStats. Qed.

Lemma elem_of_getVisibleKeys (configurable showAllStats : bool)
    (allKeys sel desel : list string) (key : string) :
  key ∈ getVisibleKeys configurable showAllStats allKeys sel desel
  ↔ key ∈ allKeys ∧ key ≠ "teamDetails"
    ∧ (configurable || showAllStats = true ∨ key ∈ sel).
Proof.
  unfold getVisibleKeys. destruct (configurable || showAllStats).
  - rewrite elem_of_without. tauto.
  - rewrite list_elem_of_filter, andb_True, bool_decide_spec.
    unfold includes. rewrite bool_decide_spec. intuition discriminate.
Qed.

(** X14. The columns. They are keys of the enumeration, in its order; the
    standalone "teamDetails" column is never among them; an author or a
    showcase gets all the others, a player those that are selected. *)
Theorem visible_columns (configurable showAllStats : bool)
    (allKeys sel desel : list string) :
  (∀ key, key ∈ getVisibleKeys configurable showAllStats allKeys sel desel
          ↔ key ∈ allKeys ∧ key ≠ "teamDetails"
            ∧ (configurable || showAllStats = true ∨ key ∈ sel))
  ∧ sublist (getVisibleKeys configurable showAllStats allKeys sel desel) allKeys
  ∧ "teamDetails" ∉ getVisibleKeys configurable showAllStats allKeys sel desel.
Proof.
  split; [|split].
  - intros key. apply elem_of_getVisibleKeys.
  - unfold getVisibleKeys. destruct (_ || _); apply sublist_filter.
  - rewrite elem_of_getVisibleKeys. tauto.
Qed.

(** X16. Columns and values agree: under every column that is shown, the value
    shown is the record's own, never a hole left by the filter. *)
Theorem shown_column_has_its_value (configurable showAllStats : bool) (stats : JsObject)
    (allKeys sel desel : list string) (key : string) :
  key ∈ getVisibleKeys configurable showAllStats allKeys sel desel →
  obj_get (filterVisibleStats configurable showAllStats stats sel) key = obj_get stats key.
Proof.
  intros Hin. apply elem_of_getVisibleKeys in Hin as (_ & _ & Hshow).
  rewrite obj_get_filterVisibleStats.
  destruct (configurable || showAllStats); [done|]. simpl.
  destruct Hshow as [?|Hsel]; [done|].
  unfold kept. apply includes_true in Hsel. by rewrite Hsel.
Qed.

(** X17. The details of the team are at hand wherever the team is: when the
    "team" column is shown, the "teamDetails" value of the record is kept for
    its tooltip, whether or not "teamDetails" is itself selected. *)
Theorem team_details_follow_team (configurable showAllStats : bool) (stats : JsObject)
    (allKeys sel desel : list string) :
  "team" ∈ getVisibleKeys configurable showAllStats allKeys sel desel →
  obj_get (filterVisibleStats configurable showAllStats stats sel) "teamDetails"
  = obj_get stats "teamDetails".
Proof.
  intros Hin. apply elem_of_getVisibleKeys in Hin as (_ & _ & Hshow).
  rewrite obj_get_filterVisibleStats.
  destruct (configurable || showAllStats); [done|]. simpl.
  destruct Hshow as [?|Hsel]; [done|].
  unfold kept. apply includes_true in Hsel. rewrite Hsel.
  by rewrite bool_decide_eq_true_2, orb_true_r.
Qed.
End Showing.


Lemma shown_column_has_its_value_witness :
  "team" ∈ PlayerStats.getVisibleKeys false false ["team"; "teamDetails"; "age"]
             ["team"] ["age"]
  ∧ obj_get (PlayerStatsView.filterVisibleStats false false Samples.somePlayerInfo ["team"])
      "team"
    = obj_get Samples.somePlayerInfo "team".
Proof.
  assert ("team" ∈ PlayerStats.getVisibleKeys false false ["team"; "teamDetails"; "age"]
                     ["team"] ["age"]) as Hin by (vm_compute; left).
  split; [exact Hin|].
  exact (shown_column_has_its_value false false Samples.somePlayerInfo
           ["team"; "teamDetails"; "age"] ["team"] ["age"] "team" Hin).
Defined.

Lemma team_details_follow_team_witness :
  "team" ∈ PlayerStats.getVisibleKeys false false ["team"; "teamDetails"; "age"]
             ["team"] ["age"]
  ∧ obj_get (PlayerStatsView.filterVisibleStats false false Samples.somePlayerInfo ["team"])
      "teamDetails"
    = obj_get Samples.somePlayerInfo "teamDetails".
Proof.
  assert ("team" ∈ PlayerStats.getVisibleKeys false false ["team"; "teamDetails"; "age"]
                     ["team"] ["age"]) as Hin by (vm_compute; left).
  split; [exact Hin|].
  exact (team_details_follow_team false false Samples.somePlayerInfo
           ["team"; "teamDetails"; "age"] ["team"] ["age"] Hin).
Defined.

(** What a player sees of the sample record when only the team is
    selected. *)
Example restricted_view :
  PlayerStatsView.filterVisibleStats false false Samples.somePlayerInfo ["team"]
  = [("team", VStr "NYY"); ("teamDetails", VStr "New York Yankees")].
Proof. by vm_compute. Qed.

(** ** What the earlier revision shows *)
Section ShowingEarlier.
Import PlayerStatsViewEarlier.

Lemma dashes_fold (selectedKeys ks : list string) (acc : JsObject) :
  (∀ k, k ∈ ks → k ∈ Object_keys acc) →
  Object_keys
    (foldl (λ filteredStats k,
              if negb (includes selectedKeys k) then obj_set k (VStr "-") filteredStats
              else filteredStats) acc ks)
  = Object_keys acc
  ∧ ∀ key,
      obj_get
        (foldl (λ filteredStats k,
                  if negb (includes selectedKeys k) then obj_set k (VStr "-") filteredStats
                  else filteredStats) acc ks) key
      = if decide (key ∈ ks ∧ key ∉ selectedKeys) then Some (VStr "-")
        else obj_get acc key.
Proof.
  revert acc. induction ks as [|k ks IH]; intros acc Hks; cbn [foldl].
  - split; [done|]. intros key. rewrite decide_False; [done|].
    rewrite elem_of_nil. tauto.
  - assert (k ∈ Object_keys acc) as Hk by (apply Hks; left).
    destruct (includes selectedKeys k) eqn:Hsel; simpl.
    + destruct (IH acc) as [Hkeys Hget]; [intros; apply Hks; by right|].
      split; [done|]. intros key. rewrite Hget.
      apply includes_true in Hsel.
      repeat case_decide; try done; exfalso;
        rewrite elem_of_cons in *; intuition (subst; eauto).
    + destruct (IH (obj_set k (VStr "-") acc)) as [Hkeys Hget].
      { intros k' Hk'. rewrite Object_keys_set by done. apply Hks. by right. }
      rewrite Object_keys_set in Hkeys by done.
      split; [done|]. intros key. rewrite Hget.
      apply includes_false in Hsel.
      destruct (decide (k = key)) as [->|Hne].
      * rewrite obj_get_set_eq.
        repeat case_decide; try done; exfalso;
          rewrite elem_of_cons in *; intuition (subst; eauto).
      * rewrite obj_get_set_ne by done.
        repeat case_decide; try done; exfalso;
          rewrite elem_of_cons in *; intuition (subst; eauto).
Qed.

(** X29. In the earlier revision a player is shown every key of the record, in
    the record's order; the value of a selected key is the record's own and
    the value of any other key is a dash. *)
Theorem earlier_hidden_values_are_dashed (configurable : bool) (stats : JsObject)
    (selectedKeys : list string) (key : string) :
  key ∈ Object_keys stats →
  Object_keys (filterVisibleStats configurable stats selectedKeys) = Object_keys stats
  ∧ obj_get (filterVisibleStats configurable stats selectedKeys) key
    = if configurable || includes selectedKeys key then obj_get stats key
      else Some (VStr "-").
Proof.
  intros Hin. unfold filterVisibleStats. destruct configurable; [done|]. simpl.
  destruct (dashes_fold selectedKeys (Object_keys stats) stats) as [Hkeys Hget]; [done|].
  split; [done|]. rewrite Hget.
  destruct (includes selectedKeys key) eqn:Hsel.
  - apply includes_true in Hsel. rewrite decide_False; [done|tauto].
  - apply includes_false in Hsel. by rewrite decide_True.
Qed.
End ShowingEarlier.

Lemma earlier_hidden_values_are_dashed_witness :
  "age" ∈ Object_keys Samples.somePlayerInfo
  ∧ (Object_keys (PlayerStatsViewEarlier.filterVisibleStats false Samples.somePlayerInfo
                    ["team"])
     = Object_keys Samples.somePlayerInfo
     ∧ obj_get (PlayerStatsViewEarlier.filterVisibleStats false Samples.somePlayerInfo
                  ["team"]) "age"
       = if false || includes ["team"] "age" then obj_get Samples.somePlayerInfo "age"
         else Some (VStr "-")).
Proof.
  assert ("age" ∈ Object_keys Samples.somePlayerInfo) as Hin by (vm_compute; left).
  split; [exact Hin|].
  exact (earlier_hidden_values_are_dashed false Samples.somePlayerInfo ["team"] "age" Hin).
Defined.

(** ** The order of the columns *)
Section ColumnOrder.
Import PlayerStats.

Lemma at_most_one {A : Type} (l : list A) :
  NoDup l → (∀ x y, x ∈ l → y ∈ l → x = y) → l = [] ∨ ∃ x, l = [x].
Proof.
  intros Hnd Hall. destruct l as [|x [|y l]]; [by left | right; by exists x |].
  exfalso. apply NoDup_cons in Hnd as [Hx _]. apply Hx.
  rewrite (Hall x y); [left | left | right; left].
Qed.

Lemma getSortedKeys_NoDup (obj : JsObject) (mappings : gmap string StatMapping) :
  NoDup (Object_keys obj) → NoDup (getSortedKeys obj mappings).
Proof. intros Hnd. rewrite getSortedKeys_Permutation. by apply NoDup_filter. Qed.

(** X13. The order of the columns is that of the table, not that of the record:
    when the mapped keys of a record have distinct priorities, any record
    with the same keys, in whatever order the provider sends them, is
    enumerated in the same way, and no column comes twice. *)
Theorem column_order_is_the_tables (obj1 obj2 : JsObject)
    (mappings : gmap string StatMapping) :
  Object_keys obj1 ≡ₚ Object_keys obj2 →
  NoDup (Object_keys obj1) →
  (∀ a b, a ∈ getSortedKeys obj1 mappings → b ∈ getSortedKeys obj1 mappings →
          orderOrZero mappings a = orderOrZero mappings b → a = b) →
  getSortedKeys obj1 mappings = getSortedKeys obj2 mappings
  ∧ NoDup (getSortedKeys obj1 mappings).
Proof.
  intros Hperm Hnd Hinj.
  assert (NoDup (getSortedKeys obj1 mappings)) as Hnd1 by by apply getSortedKeys_NoDup.
  assert (getSortedKeys obj1 mappings ≡ₚ getSortedKeys obj2 mappings) as Hp.
  { by rewrite !getSortedKeys_Permutation, Hperm. }
  split; [|done].
  apply (sorted_stable_unique (orderOrZero mappings));
    [apply getSortedKeys_StronglySorted..|].
  intros p.
  set (P := λ key, orderOrZero mappings key = p).
  assert (filter P (getSortedKeys obj1 mappings) ≡ₚ filter P (getSortedKeys obj2 mappings))
    as Hfp by by rewrite Hp.
  destruct (at_most_one (filter P (getSortedKeys obj1 mappings))) as [He|[x He]].
  - by apply NoDup_filter.
  - intros x y Hx Hy. apply list_elem_of_filter in Hx as [Hx1 Hx2].
    apply list_elem_of_filter in Hy as [Hy1 Hy2]. apply Hinj; [done..|].
    unfold P in *. congruence.
  - rewrite He in Hfp |- *. by apply Permutation_nil_l in Hfp.
  - rewrite He in Hfp |- *. by apply Permutation_singleton_l in Hfp.
Qed.
End ColumnOrder.

Lemma column_order_is_the_tables_witness :
  Object_keys Samples.someHittingRecord
  ≡ₚ Object_keys [("playerId", VNum 7); ("hr", VNum 40); ("avg", VStr ".300")]
  ∧ NoDup (Object_keys Samples.someHittingRecord)
  ∧ (∀ a b,
       a ∈ PlayerStats.getSortedKeys Samples.someHittingRecord Samples.hittingMappings →
       b ∈ PlayerStats.getSortedKeys Samples.someHittingRecord Samples.hittingMappings →
       PlayerStats.orderOrZero Samples.hittingMappings a
       = PlayerStats.orderOrZero Samples.hittingMappings b → a = b)
  ∧ (PlayerStats.getSortedKeys Samples.someHittingRecord Samples.hittingMappings
     = PlayerStats.getSortedKeys
         [("playerId", VNum 7); ("hr", VNum 40); ("avg", VStr ".300")]
         Samples.hittingMappings
     ∧ NoDup (PlayerStats.getSortedKeys Samples.someHittingRecord Samples.hittingMappings)).
Proof.
  assert (Object_keys Samples.someHittingRecord
          ≡ₚ Object_keys [("playerId", VNum 7); ("hr", VNum 40); ("avg", VStr ".300")])
    as H1.
  { simpl. apply NoDup_Permutation.
    - repeat (apply NoDup_cons_2; [arrays|]). apply NoDup_nil_2.
    - repeat (apply NoDup_cons_2; [arrays|]). apply NoDup_nil_2.
    - intros key. arrays. }
  assert (NoDup (Object_keys Samples.someHittingRecord)) as H2.
  { simpl. repeat (apply NoDup_cons_2; [arrays|]). apply NoDup_nil_2. }
  assert (∀ a b,
            a ∈ PlayerStats.getSortedKeys Samples.someHittingRecord Samples.hittingMappings →
            b ∈ PlayerStats.getSortedKeys Samples.someHittingRecord Samples.hittingMappings →
            PlayerStats.orderOrZero Samples.hittingMappings a
            = PlayerStats.orderOrZero Samples.hittingMappings b → a = b) as H3.
  { replace (PlayerStats.getSortedKeys Samples.someHittingRecord Samples.hittingMappings)
      with ["hr"; "avg"] by (by vm_compute).
    intros a b Ha Hb.
    rewrite !elem_of_cons, elem_of_nil in Ha, Hb.
    destruct Ha as [->|[->|[]]], Hb as [->|[->|[]]]; vm_compute; congruence. }
  split; [exact H1|]. split; [exact H2|]. split; [exact H3|].
  exact (column_order_is_the_tables Samples.someHittingRecord
           [("playerId", VNum 7); ("hr", VNum 40); ("avg", VStr ".300")]
           Samples.hittingMappings H1 H2 H3).
Defined.

(** ** The highlight and its timer *)
Section Highlight.
Import RevealedStats.

Lemma run_app (h : Hook) (es1 es2 : list Event) : run h (es1 ++ es2) = run (run h es1) es2.
Proof. unfold run. apply foldl_app. Qed.

(** A pending timer is one the hook still holds the handle of. *)
Lemma run_timer (stats : list string) (es : list Event) :
  timerPending (run (mount stats) es) = true → timeoutRef (run (mount stats) es) = true.
Proof.
  induction es as [|e es IH] using rev_ind; [by rewrite mount_eq|].
  rewrite run_snoc. destruct e as [stats'|]; simpl.
  - unfold statsEffect, statsCleanup.
    destruct (timeoutRef (run (mount stats) es)) eqn:Href; simpl;
      rewrite run_isMounted; simpl; case_bool_decide; simpl; try done.
    rewrite Href. done.
  - unfold timeoutFires. destruct (timerPending _) eqn:Hp; simpl; [done|].
    by rewrite Hp.
Qed.

(** X18. What the hook keeps at every moment of its life: it is mounted, it
    remembers exactly the selection of the latest render, and a timer is
    pending only if its handle is held. *)
Theorem hook_invariant (stats : list string) (es : list Event) :
  isMountedRef (run (mount stats) es) = true
  ∧ previousStatsRef (run (mount stats) es) = list_to_set (selectionAfter stats es)
  ∧ (timerPending (run (mount stats) es) = false
     ∨ timeoutRef (run (mount stats) es) = true).
Proof.
  split; [apply run_isMounted|]. split; [apply run_previousStatsRef|].
  destruct (timerPending _) eqn:Hp; [right; by apply run_timer|by left].
Qed.

Lemma reveal_step (h : Hook) (stats : list string) (key : string) :
  isMountedRef h = true → key ∈ stats → key ∉ previousStatsRef h →
  step h (StatsChanged stats)
  = mkHook (list_to_set stats ∖ previousStatsRef h) true true (list_to_set stats) true.
Proof.
  intros Hm Hin Hnew. simpl. unfold statsEffect.
  destruct (statsCleanup_refs h) as (_ & Hp & Hmc). rewrite Hmc, Hm, Hp. simpl.
  assert (key ∈ newStats (previousStatsRef h) stats) as Hfresh
    by by apply elem_of_newStats.
  rewrite bool_decide_eq_true_2.
  - f_equal. apply set_eq. intros k.
    by rewrite elem_of_difference, !elem_of_list_to_set, elem_of_newStats.
  - destruct (newStats _ _); [by apply elem_of_nil in Hfresh | simpl; lia].
Qed.

(** X19. A change that brings in a key replaces whatever highlight was showing
    by the keys it brings in and leaves one timer pending; if that timer
    expires before the next change, the highlight is empty again. *)
Theorem reveal_then_expiry (stats : list string) (es : list Event)
    (changed : list string) (key : string) :
  key ∈ changed → key ∉ selectionAfter stats es →
  useRevealedStats stats (es ++ [StatsChanged changed])
  = list_to_set changed ∖ list_to_set (selectionAfter stats es)
  ∧ timerPending (run (mount stats) (es ++ [StatsChanged changed])) = true
  ∧ useRevealedStats stats (es ++ [StatsChanged changed; TimerExpired]) = ∅.
Proof.
  intros Hin Hnew. unfold useRevealedStats.
  assert (run (mount stats) (es ++ [StatsChanged changed])
          = mkHook (list_to_set changed ∖ list_to_set (selectionAfter stats es))
              true true (list_to_set changed) true) as Hrun.
  { rewrite run_snoc, <- run_previousStatsRef.
    apply (reveal_step _ _ key); [apply run_isMounted|done|].
    by rewrite run_previousStatsRef, elem_of_list_to_set. }
  rewrite Hrun. split; [done|]. split; [done|].
  replace (es ++ [StatsChanged changed; TimerExpired])
    with ((es ++ [StatsChanged changed]) ++ [TimerExpired]) by by rewrite <- app_assoc.
  by rewrite run_snoc, Hrun.
Qed.

Lemma timeoutFires_idle (h : Hook) (n : nat) :
  timerPending h = false → run h (replicate n TimerExpired) = h.
Proof.
  intros Hp. induction n as [|n IH]; [done|].
  rewrite replicate_S. unfold run in *. simpl. unfold timeoutFires. by rewrite Hp.
Qed.

(** X20. A change that brings in no key cancels the pending timer and starts
    none: the highlight showing at that moment stays as it is, however many
    times the timer's delay goes by. *)
Theorem highlight_left_showing (stats : list string) (es : list Event)
    (changed : list string) (n : nat) :
  (∀ key, key ∈ changed → key ∈ selectionAfter stats es) →
  useRevealedStats stats (es ++ StatsChanged changed :: replicate n TimerExpired)
  = useRevealedStats stats es
  ∧ timerPending (run (mount stats)
                    (es ++ StatsChanged changed :: replicate n TimerExpired)) = false.
Proof.
  intros Hold. unfold useRevealedStats.
  replace (es ++ StatsChanged changed :: replicate n TimerExpired)
    with ((es ++ [StatsChanged changed]) ++ replicate n TimerExpired)
    by by rewrite <- app_assoc.
  rewrite run_app, run_snoc.
  set (h := run (mount stats) es).
  assert (newlyRevealed (step h (StatsChanged changed)) = newlyRevealed h
          ∧ timerPending (step h (StatsChanged changed)) = false) as [Hn Hp].
  { simpl. unfold statsEffect.
    destruct (statsCleanup_refs h) as (Hnc & Hpc & Hmc).
    rewrite Hmc, Hpc. subst h. rewrite run_isMounted, run_previousStatsRef. simpl.
    assert (newStats (list_to_set (selectionAfter stats es)) changed = []) as ->.
    { apply elem_of_nil_inv. intros key.
      rewrite elem_of_newStats, elem_of_list_to_set. intros [? ?]. auto. }
    simpl. split; [done|].
    unfold statsCleanup.
    destruct (timeoutRef (run (mount stats) es)) eqn:Href; simpl; [done|].
    destruct (timerPending (run (mount stats) es)) eqn:Hpend; [|done].
    apply run_timer in Hpend. congruence. }
  rewrite timeoutFires_idle by done. done.
Qed.
End Highlight.

Lemma reveal_then_expiry_witness :
  "b" ∈ ["a"; "b"]
  ∧ ("b" ∉ selectionAfter ["a"] [])
  ∧ (RevealedStats.useRevealedStats ["a"] ([] ++ [RevealedStats.StatsChanged ["a"; "b"]])
     = list_to_set ["a"; "b"] ∖ list_to_set (selectionAfter ["a"] [])
     ∧ RevealedStats.timerPending
         (RevealedStats.run (RevealedStats.mount ["a"])
            ([] ++ [RevealedStats.StatsChanged ["a"; "b"]])) = true
     ∧ RevealedStats.useRevealedStats ["a"]
         ([] ++ [RevealedStats.StatsChanged ["a"; "b"]; RevealedStats.TimerExpired]) = ∅).
Proof.
  assert ("b" ∈ ["a"; "b"]) as H1 by (right; left).
  assert ("b" ∉ selectionAfter ["a"] []) as H2 by (simpl; arrays).
  split; [exact H1|]. split; [exact H2|].
  exact (reveal_then_expiry ["a"] [] ["a"; "b"] "b" H1 H2).
Defined.

Lemma highlight_left_showing_witness :
  (∀ key, key ∈ ["a"] → key ∈ selectionAfter ["a"] [RevealedStats.StatsChanged ["a"; "b"]])
  ∧ (RevealedStats.useRevealedStats ["a"]
       ([RevealedStats.StatsChanged ["a"; "b"]]
          ++ RevealedStats.StatsChanged ["a"] :: replicate 3 RevealedStats.TimerExpired)
     = RevealedStats.useRevealedStats ["a"] [RevealedStats.StatsChanged ["a"; "b"]]
     ∧ RevealedStats.timerPending
         (RevealedStats.run (RevealedStats.mount ["a"])
            ([RevealedStats.StatsChanged ["a"; "b"]]
               ++ RevealedStats.StatsChanged ["a"] :: replicate 3 RevealedStats.TimerExpired))
       = false).
Proof.
  assert (∀ key, key ∈ ["a"] →
                 key ∈ selectionAfter ["a"] [RevealedStats.StatsChanged ["a"; "b"]]) as H1.
  { intros key Hk. simpl. arrays. }
  split; [exact H1|].
  exact (highlight_left_showing ["a"] [RevealedStats.StatsChanged ["a"; "b"]] ["a"] 3 H1).
Defined.

(** ** The search box *)
Section SearchFacts.
Import PlayerSearch SearchBox.
Variable provider : string → Answer.

(** Typing records the value; it asks the provider at most once, for
    exactly what was typed; and it leaves the list open only for a value of
    two characters or more. *)
Lemma typing_a_value (value : string) (st : State) :
  search (handleSearch provider value st).1 = value
  ∧ ((handleSearch provider value st).2 = []
     ∨ (handleSearch provider value st).2 = [PeopleSearch value])
  ∧ (open (handleSearch provider value st).1 = false ∨ (2 ≤ String.length value)%nat).
Proof.
  unfold handleSearch, searchPlayers. case_bool_decide as Hlen; simpl.
  - rewrite bool_decide_eq_false_2 by lia.
    destruct (provider value); simpl; split; try done; split; by right.
  - split; [done|]. split; by left.
Qed.

(** X21. After a value shorter than two characters nothing is shown under the
    input, and focusing the input does not bring the earlier results
    back. *)
Theorem short_value_hides_results (value : string) (st : State) :
  (String.length value < 2)%nat →
  dropdown (handleSearch provider value st).1 = Hidden
  ∧ dropdown (onFocus (handleSearch provider value st).1) = Hidden.
Proof.
  intros Hlen. rewrite handleSearch_short by done.
  unfold onFocus, dropdown. simpl. by rewrite bool_decide_eq_false_2 by lia.
Qed.

(** X22. A search that fails is shown like a search without results: the list is
    emptied, the loading mark is taken away, and what is under the input is
    either nothing or "No players found". *)
Theorem failed_search (value : string) (st : State) :
  (2 ≤ String.length value)%nat → provider value = Threw →
  players (handleSearch provider value st).1 = []
  ∧ loading (handleSearch provider value st).1 = false
  ∧ (dropdown (handleSearch provider value st).1 = Hidden
     ∨ dropdown (handleSearch provider value st).1 = NoPlayersFound).
Proof.
  intros Hlen Hthrew. unfold handleSearch, searchPlayers.
  rewrite bool_decide_eq_true_2 by done. rewrite bool_decide_eq_false_2 by (simpl; lia).
  rewrite Hthrew. simpl. split; [done|]. split; [done|].
  unfold dropdown. simpl. destruct (open st); simpl; [right|by left].
  by rewrite bool_decide_eq_true_2.
Qed.

(** An answer of the provider opens the list on exactly the players of the
    answer, or on "No players found" when the answer has none. *)
Lemma answered_search (value : string) (st : State) (people : option (list Player)) :
  (2 ≤ String.length value)%nat → provider value = Json people →
  players (handleSearch provider value st).1 = default [] people
  ∧ dropdown (handleSearch provider value st).1
    = match default [] people with
      | [] => NoPlayersFound
      | found => Results found
      end.
Proof.
  intros Hlen Hjson. unfold handleSearch, searchPlayers.
  rewrite bool_decide_eq_true_2 by done. rewrite bool_decide_eq_false_2 by (simpl; lia).
  rewrite Hjson. simpl. split; [done|].
  unfold dropdown. simpl. destruct (default [] people) as [|p ps]; simpl.
  - by rewrite bool_decide_eq_true_2.
  - done.
Qed.
End SearchFacts.

Lemma short_value_hides_results_witness :
  (String.length "j" < 2)%nat
  ∧ (SearchBox.dropdown (PlayerSearch.handleSearch Samples.someProvider "j"
                           Samples.someSearch).1 = SearchBox.Hidden
     ∧ SearchBox.dropdown
         (SearchBox.onFocus (PlayerSearch.handleSearch Samples.someProvider "j"
                               Samples.someSearch).1) = SearchBox.Hidden).
Proof.
  assert (String.length "j" < 2)%nat as Hlen by (simpl; lia).
  split; [exact Hlen|].
  exact (short_value_hides_results Samples.someProvider "j" Samples.someSearch Hlen).
Defined.

Lemma failed_search_witness :
  (2 ≤ String.length "jo")%nat
  ∧ (λ _ : string, PlayerSearch.Threw) "jo" = PlayerSearch.Threw
  ∧ (PlayerSearch.players
       (PlayerSearch.handleSearch (λ _, PlayerSearch.Threw) "jo" Samples.someSearch).1 = []
     ∧ PlayerSearch.loading
         (PlayerSearch.handleSearch (λ _, PlayerSearch.Threw) "jo" Samples.someSearch).1
       = false
     ∧ (SearchBox.dropdown
          (PlayerSearch.handleSearch (λ _, PlayerSearch.Threw) "jo" Samples.someSearch).1
        = SearchBox.Hidden
        ∨ SearchBox.dropdown
            (PlayerSearch.handleSearch (λ _, PlayerSearch.Threw) "jo" Samples.someSearch).1
          = SearchBox.NoPlayersFound)).
Proof.
  assert (2 ≤ String.length "jo")%nat as Hlen by (simpl; lia).
  split; [exact Hlen|]. split; [reflexivity|].
  exact (failed_search (λ _, PlayerSearch.Threw) "jo" Samples.someSearch Hlen eq_refl).
Defined.

(** ** The guesses route, again *)
Section GuessFacts.
Import GuessesRoute.
Context {Store : Type} `{!Supabase Store}.

(** X23. Only a POST writes: for any other method the handler never calls the
    provider's insert. *)
Theorem only_post_writes (req : Request) (store : Store) (rows : list Row) :
  method req ≠ "POST" → Insert rows ∉ (handler req store).1.2.
Proof.
  intros Hm. unfold handler. rewrite decide_False by done.
  case_decide.
  - destruct (select_eq_game_id store (query_game_id req)) as [store' [message|data]];
      simpl; rewrite list_elem_of_singleton; discriminate.
  - simpl. apply not_elem_of_nil.
Qed.

(** A method that is neither POST nor GET reaches no provider call: the
    store is as before and the answer is 405, lists the two methods allowed
    and names the method refused. *)
Lemma unsupported_method (req : Request) (store : Store) :
  method req ≠ "POST" → method req ≠ "GET" →
  handler req store
  = (store, [], mkResponse 405 ["POST"; "GET"]
                  (Text ("Method " +:+ method req +:+ " Not Allowed"))).
Proof. intros Hp Hg. unfold handler. by rewrite !decide_False. Qed.

(** Listing the guesses of a game is one call of the provider's select, for
    the game identifier of the query; its rows come back with 200, and its
    error comes back with 400 and the provider's message. *)
Lemma list_guesses (req : Request) (store : Store) :
  method req = "GET" →
  (handler req store).1.2 = [SelectByGame (query_game_id req)]
  ∧ (handler req store).1.1 = (select_eq_game_id store (query_game_id req)).1
  ∧ (handler req store).2
    = match (select_eq_game_id store (query_game_id req)).2 with
      | DbError message => mkResponse 400 [] (JsonError message)
      | DbData data => mkResponse 200 [] (JsonData data)
      end.
Proof.
  intros Hget. unfold handler. rewrite decide_False by (rewrite Hget; discriminate).
  rewrite decide_True by done.
  by destruct (select_eq_game_id store (query_game_id req)) as [store' [message|data]].
Qed.
End GuessFacts.

Lemma only_post_writes_witness :
  GuessesRoute.method listRequest ≠ "POST"
  ∧ (GuessesRoute.Insert [GuessesRoute.body completeGuess]
     ∉ (GuessesRoute.handler listRequest
          (GuessesRoute.mkStrict [GuessesRoute.body completeGuess])).1.2).
Proof.
  assert (GuessesRoute.method listRequest ≠ "POST") as Hm by discriminate.
  split; [exact Hm|].
  exact (only_post_writes listRequest (GuessesRoute.mkStrict [GuessesRoute.body completeGuess])
           [GuessesRoute.body completeGuess] Hm).
Defined.

(** A guess that was stored is listed for its game. *)
Example stored_guess_is_listed :
  let stored := (GuessesRoute.handler completeGuess (GuessesRoute.mkStrict [])).1.1 in
  (GuessesRoute.handler listRequest stored).2
  = GuessesRoute.mkResponse 200 []
      (GuessesRoute.JsonData (Some [GuessesRoute.body completeGuess])).
Proof. by vm_compute. Qed.

(** ** The create-game page *)
Section PageFacts.
Import CreateGamePage.
Variable origin : string.
Variable api : GameBody → SaveAnswer.

(** X24. Changes to two different namespaces can be handled in either order. *)
Theorem changes_commute (prev : StatsConfig) (c1 c2 : StatsChange) :
  sc_type c1 ≠ sc_type c2 →
  handleStatsChange (handleStatsChange prev c1) c2
  = handleStatsChange (handleStatsChange prev c2) c1.
Proof.
  intros Hne. unfold handleStatsChange.
  destruct (sc_type c1), (sc_type c2); done.
Qed.

(** Of two changes to one namespace the later one wins. *)
Lemma last_change_wins (prev : StatsConfig) (c1 c2 : StatsChange) :
  sc_type c1 = sc_type c2 →
  handleStatsChange (handleStatsChange prev c1) c2 = handleStatsChange prev c2.
Proof.
  intros Heq. unfold handleStatsChange. rewrite <- Heq. by destruct (sc_type c1).
Qed.

Lemma copyStatsConfig_id (cfg : StatsConfig) : copyStatsConfig cfg = cfg.
Proof. by destruct cfg as [[] [] []]. Qed.

(** X25. Saving changes nothing but the link, and the link only when the server
    has accepted the game of a selected player and named it; the link is
    then the page of that game. *)
Theorem save_changes_the_link_only (page : Page) :
  selectedPlayer (saveGameConfiguration origin api page).1 = selectedPlayer page
  ∧ statsConfig (saveGameConfiguration origin api page).1 = statsConfig page
  ∧ gameOptions (saveGameConfiguration origin api page).1 = gameOptions page
  ∧ user (saveGameConfiguration origin api page).1 = user page
  ∧ (link (saveGameConfiguration origin api page).1 = link page
     ∨ ∃ player gameId,
         selectedPlayer page = Some player
         ∧ api (gameBody player page) = Ok (Some gameId)
         ∧ link (saveGameConfiguration origin api page).1
           = origin +:+ "/game/" +:+ gameId).
Proof.
  unfold saveGameConfiguration.
  destruct (selectedPlayer page) as [player|] eqn:Hp; [|by repeat split; try left].
  destruct (api (gameBody player page)) as [| |[gameId|]] eqn:Hapi; simpl;
    repeat split; try done; try (by left).
  right. by exists player, gameId.
Qed.

Lemma saveGameConfiguration_requests (page : Page) :
  match selectedPlayer page with
  | None => (saveGameConfiguration origin api page).2 = []
  | Some player =>
      ∃ body, (saveGameConfiguration origin api page).2 = [body]
              ∧ stats_config body = statsConfig page
              ∧ player_id body = PlayerSearch.id player
              ∧ title body = "Game for " +:+ PlayerSearch.fullName player
              ∧ body_maxGuesses body = maxGuesses (gameOptions page)
  end.
Proof.
  unfold saveGameConfiguration.
  destruct (selectedPlayer page) as [player|]; [|done].
  exists (gameBody player page). split.
  - by destruct (api (gameBody player page)) as [| |[gameId|]].
  - simpl. by rewrite copyStatsConfig_id.
Qed.

(** Without a selected player nothing is sent. With one, a single request
    is sent, whatever the server then answers; it carries the player's
    identifier and the three selections exactly as the page has them. *)
Lemma saved_selections_are_the_pages (page : Page) :
  match selectedPlayer page with
  | None => (saveGameConfiguration origin api page).2 = []
  | Some player =>
      ∃ body, (saveGameConfiguration origin api page).2 = [body]
              ∧ stats_config body = statsConfig page
              ∧ player_id body = PlayerSearch.id player
              ∧ title body = "Game for " +:+ PlayerSearch.fullName player
              ∧ body_maxGuesses body = maxGuesses (gameOptions page)
  end.
Proof. apply saveGameConfiguration_requests. Qed.

(** X26. What is saved is what the toggles made: after any run of changes handled
    by the page, the request carries the selections those changes add up
    to. *)
Theorem saved_after_changes (page : Page) (player : PlayerSearch.Player)
    (changes : list StatsChange) :
  selectedPlayer page = Some player →
  let edited := foldl (λ p c, onStatsChange c p) page changes in
  ∃ body, (saveGameConfiguration origin api edited).2 = [body]
          ∧ stats_config body = applyStatsChanges (statsConfig page) changes
          ∧ player_id body = PlayerSearch.id player.
Proof.
  intros Hp edited.
  assert (selectedPlayer edited = Some player
          ∧ statsConfig edited = applyStatsChanges (statsConfig page) changes) as [Hs Hc].
  { subst edited. revert page Hp. induction changes as [|c cs IH]; intros page Hp; [done|].
    simpl. destruct (IH (onStatsChange c page)) as [H1 H2]; [done|].
    split; [done|]. rewrite H2. done. }
  pose proof (saveGameConfiguration_requests edited) as H.
  rewrite Hs in H. destruct H as (body & Hb & Hcfg & Hid & _).
  exists body. by rewrite Hb, Hcfg, Hid, Hc.
Qed.
End PageFacts.

Lemma changes_commute_witness :
  sc_type (mkStatsChange info [] ["age"]) ≠ sc_type (mkStatsChange hitting ["hr"] [])
  ∧ handleStatsChange (handleStatsChange Samples.teamRevealed (mkStatsChange info [] ["age"]))
      (mkStatsChange hitting ["hr"] [])
    = handleStatsChange
        (handleStatsChange Samples.teamRevealed (mkStatsChange hitting ["hr"] []))
        (mkStatsChange info [] ["age"]).
Proof.
  assert (sc_type (mkStatsChange info [] ["age"]) ≠ sc_type (mkStatsChange hitting ["hr"] []))
    as Hne by discriminate.
  split; [exact Hne|].
  exact (changes_commute Samples.teamRevealed (mkStatsChange info [] ["age"])
           (mkStatsChange hitting ["hr"] []) Hne).
Defined.

Lemma saved_after_changes_witness :
  CreateGamePage.selectedPlayer somePage = Some (PlayerSearch.mkPlayer 7 "Jo Doe")
  ∧ (let edited :=
       foldl (λ p c, CreateGamePage.onStatsChange c p) somePage
         [PlayerStats.toggleAttribute Samples.teamRevealed "age" info] in
     ∃ body,
       (CreateGamePage.saveGameConfiguration "https://example.org" someApi edited).2 = [body]
       ∧ CreateGamePage.stats_config body
         = applyStatsChanges (CreateGamePage.statsConfig somePage)
             [PlayerStats.toggleAttribute Samples.teamRevealed "age" info]
       ∧ CreateGamePage.player_id body = PlayerSearch.id (PlayerSearch.mkPlayer 7 "Jo Doe")).
Proof.
  split; [reflexivity|].
  exact (saved_after_changes "https://example.org" someApi somePage
           (PlayerSearch.mkPlayer 7 "Jo Doe")
           [PlayerStats.toggleAttribute Samples.teamRevealed "age" info] eq_refl).
Defined.

(** The link of the sample page once saved. *)
Example link_after_saving :
  CreateGamePage.link
    (CreateGamePage.saveGameConfiguration "https://example.org" someApi somePage).1
  = "https://example.org/game/g1".
Proof. reflexivity. Qed.

(** ** The earlier revision, again *)
Section EarlierFacts.
Import PlayerStatsEarlier.

(** X27. In the earlier revision a toggle moves its key to the other side and
    leaves every other key, "teamDetails" included, where it was. *)
Theorem earlier_toggle_moves_one_key (props : StatsConfig) (attribute key : string)
    (type : StatType) :
  key ≠ attribute →
  (key ∈ selected (afterCall props (toggleAttribute props attribute type))
   ↔ key ∈ selected (selection_of props type))
  ∧ (key ∈ deselected (afterCall props (toggleAttribute props attribute type))
     ↔ key ∈ deselected (selection_of props type))
  ∧ (attribute ∈ selected (afterCall props (toggleAttribute props attribute type))
     ↔ attribute ∉ selected (selection_of props type))
  ∧ (attribute ∈ deselected (afterCall props (toggleAttribute props attribute type))
     ↔ attribute ∈ selected (selection_of props type)).
Proof.
  intros Hk. rewrite afterCall_eq. simpl. unfold toggleAttribute.
  destruct (includes _ attribute) eqn:Hin; simpl; arrays.
Qed.

(** The namespaces after the calls of a load of the earlier revision. *)
Lemma earlier_loadPlayerData_selection (configurable : bool) (props cur : StatsConfig)
    (data : PlayerData) (type : StatType) :
  selection_of (applyStatsChanges cur (loadPlayerData configurable props data)) type
  = match firstRecordOf data type with
    | Some first =>
        if configurable
           && bool_decide (length (selected (selection_of props type)) = 0%nat)
        then mkSelection (Object_keys first) []
        else selection_of cur type
    | None => selection_of cur type
    end.
Proof.
  unfold loadPlayerData, applyStatsChanges.
  destruct type; simpl;
    destruct (d_playerInfo data), (d_hittingStats data), (d_pitchingStats data); simpl;
    repeat (destruct (_ && _)); done.
Qed.

(** X28. In the earlier revision a load takes a namespace without a selected key
    for a fresh one: every key of the record becomes selected, also those
    the creator had deselected. *)
Theorem earlier_load_reveals_hidden (props : StatsConfig) (data : PlayerData)
    (type : StatType) (first : JsObject) :
  firstRecordOf data type = Some first →
  selected (selection_of props type) = [] →
  selection_of (applyStatsChanges props (loadPlayerData true props data)) type
  = mkSelection (Object_keys first) [].
Proof.
  intros Hfirst Hsel. by rewrite earlier_loadPlayerData_selection, Hfirst, Hsel.
Qed.

(** It leaves a namespace alone as soon as one of its keys is selected. *)
Lemma earlier_load_keeps_selection (configurable : bool) (props : StatsConfig)
    (data : PlayerData) (type : StatType) :
  selected (selection_of props type) ≠ [] →
  selection_of (applyStatsChanges props (loadPlayerData configurable props data)) type
  = selection_of props type.
Proof.
  intros Hsel. rewrite earlier_loadPlayerData_selection.
  destruct (firstRecordOf data type); [|done].
  rewrite (bool_decide_eq_false_2 (length _ = 0%nat)).
  - by rewrite andb_false_r.
  - by rewrite length_zero_iff_nil.
Qed.
End EarlierFacts.

Lemma earlier_toggle_moves_one_key_witness :
  "teamDetails" ≠ "team"
  ∧ ((("teamDetails" ∈ selected (afterCall Samples.teamRevealed
         (PlayerStatsEarlier.toggleAttribute Samples.teamRevealed "team" info)))
      ↔ "teamDetails" ∈ selected (selection_of Samples.teamRevealed info))
     ∧ (("teamDetails" ∈ deselected (afterCall Samples.teamRevealed
           (PlayerStatsEarlier.toggleAttribute Samples.teamRevealed "team" info)))
        ↔ "teamDetails" ∈ deselected (selection_of Samples.teamRevealed info))
     ∧ (("team" ∈ selected (afterCall Samples.teamRevealed
           (PlayerStatsEarlier.toggleAttribute Samples.teamRevealed "team" info)))
        ↔ "team" ∉ selected (selection_of Samples.teamRevealed info))
     ∧ (("team" ∈ deselected (afterCall Samples.teamRevealed
           (PlayerStatsEarlier.toggleAttribute Samples.teamRevealed "team" info)))
        ↔ "team" ∈ selected (selection_of Samples.teamRevealed info))).
Proof.
  assert ("teamDetails" ≠ "team") as Hne by discriminate.
  split; [exact Hne|].
  exact (earlier_toggle_moves_one_key Samples.teamRevealed "team" "teamDetails" info Hne).
Defined.

Lemma earlier_load_reveals_hidden_witness :
  firstRecordOf Samples.someData info = Some Samples.somePlayerInfo
  ∧ selected (selection_of
                (mkStatsConfig (mkSelection [] ["age"; "team"; "teamDetails"])
                   (mkSelection [] []) (mkSelection [] [])) info) = []
  ∧ selection_of
      (applyStatsChanges
         (mkStatsConfig (mkSelection [] ["age"; "team"; "teamDetails"])
            (mkSelection [] []) (mkSelection [] []))
         (PlayerStatsEarlier.loadPlayerData true
            (mkStatsConfig (mkSelection [] ["age"; "team"; "teamDetails"])
               (mkSelection [] []) (mkSelection [] []))
            Samples.someData)) info
    = mkSelection (Object_keys Samples.somePlayerInfo) [].
Proof.
  split; [reflexivity|]. split; [reflexivity|].
  exact (earlier_load_reveals_hidden
           (mkStatsConfig (mkSelection [] ["age"; "team"; "teamDetails"])
              (mkSelection [] []) (mkSelection [] []))
           Samples.someData info Samples.somePlayerInfo eq_refl eq_refl).
Defined.
